(** * MyST reference resolution: [myst_parser/sphinx_ext/myst_refs.py]

    A shallow embedding of [MystReferenceResolver] (the post-transform that
    resolves [[text](target)] placeholders) together with the properties its
    design document states about it.

    Layout:
    - [PyStr], [PosixPath]: the string and path primitives the resolver
      calls ([str.lower], [str.rsplit], [os.path.normpath], [os.path.join],
      [os.path.splitext], [sphinx.util.docname_join]);
    - docutils nodes, [astext], the placeholder [pending_xref] and the
      document tree;
    - the exception-and-state monad the methods are written in;
    - Sphinx: the logger with its [once] filter, the configuration, the
      standard domain, other domains, [make_refnode], the event listeners;
    - the methods of [MystReferenceResolver], one definition per method
      ([resolve_myst_ref] in the stages [anchor_label_doc], [std_objects],
      [other_domains], [select]);
    - a small project for the examples, the predicates of the statements;
    - the properties, claim by claim, and the examples.

    Modelling decisions:
    - strings are byte strings and [lower] folds the ASCII letters only;
      paths follow [posixpath];
    - docutils nodes are immutable values, so [deepcopy] is the identity;
    - a placeholder holds inline material, in which there is no placeholder
      (the parser renders link text that way), hence the two node types;
    - the exceptions are the two the resolver handles, [NoUri] and
      [NotImplementedError]; each capability says in its type which of them
      it may raise;
    - [logger.warning] appends a record; [once=True] is Sphinx's
      [OnceFilter]; warning suppression by configuration is downstream of
      the logger and left out. *)

From stdpp Require Import gmap strings list.
From Stdlib Require Import Ascii String ZArith Lia.

Set Warnings "-register-all".

Open Scope string_scope.
Open Scope list_scope.

(* ===================================================================== *)
(** ** Python string primitives *)
(* ===================================================================== *)

Module PyStr.

(** [c.lower()] on one ASCII character. *)
Definition lower_ascii (c : ascii) : ascii :=
  let n := nat_of_ascii c in
  if (65 <=? n)%nat && (n <=? 90)%nat then ascii_of_nat (n + 32) else c.

(** [s.lower()] *)
Fixpoint lower (s : string) : string :=
  match s with
  | EmptyString => EmptyString
  | String c s' => String (lower_ascii c) (lower s')
  end.

(** [c in s] for a one-character [c]. *)
Fixpoint contains (c : ascii) (s : string) : bool :=
  match s with
  | EmptyString => false
  | String a s' => if Ascii.eqb a c then true else contains c s'
  end.

(** [s.startswith(p)] *)
Definition startswith (p s : string) : bool := String.prefix p s.

(** [s.endswith(c)] for a one-character [c]. *)
Fixpoint endswith (c : ascii) (s : string) : bool :=
  match s with
  | EmptyString => false
  | String a EmptyString => Ascii.eqb a c
  | String _ s' => endswith c s'
  end.

(** [s.split(c)] for a one-character separator: never the empty list. *)
Fixpoint split (c : ascii) (s : string) : list string :=
  match s with
  | EmptyString => [EmptyString]
  | String a s' =>
      if Ascii.eqb a c then EmptyString :: split c s'
      else match split c s' with
           | [] => [String a EmptyString]
           | w :: ws => String a w :: ws
           end
  end.

(** [sep.join(l)] *)
Definition join (sep : string) (l : list string) : string :=
  String.concat sep l.

(** [s.rsplit(c, 1)] when [c in s]: the text before and after the last
    occurrence of [c]; [None] when [c] does not occur. *)
Fixpoint rsplit1 (c : ascii) (s : string) : option (string * string) :=
  match s with
  | EmptyString => None
  | String a s' =>
      match rsplit1 c s' with
      | Some (p, q) => Some (String a p, q)
      | None => if Ascii.eqb a c then Some (EmptyString, s') else None
      end
  end.

(** [s.replace(c, d)] for one-character [c] and [d]. *)
Fixpoint replace (c d : ascii) (s : string) : string :=
  match s with
  | EmptyString => EmptyString
  | String a s' =>
      String (if Ascii.eqb a c then d else a) (replace c d s')
  end.

(** [s.rfind(c)]: index of the last [c], or [-1]. *)
Fixpoint rfind_from (c : ascii) (s : string) (i : Z) (acc : Z) : Z :=
  match s with
  | EmptyString => acc
  | String a s' =>
      rfind_from c s' (i + 1) (if Ascii.eqb a c then i else acc)
  end.

Definition rfind (c : ascii) (s : string) : Z := rfind_from c s 0 (-1).

(** [s[i:j]] for [0 <= i <= j]. *)
Definition slice (s : string) (i j : Z) : string :=
  String.substring (Z.to_nat i) (Z.to_nat (j - i)) s.

(** [s[i:]] *)
Definition slice_from (s : string) (i : Z) : string :=
  String.substring (Z.to_nat i) (String.length s - Z.to_nat i) s.

Definition eqb (a b : string) : bool := String.eqb a b.

End PyStr.

(* ===================================================================== *)
(** ** [posixpath] and [sphinx.util.docname_join] *)
(* ===================================================================== *)

Module PosixPath.
Import PyStr.

Definition sep : ascii := "/"%char.

(** The loop of [posixpath.normpath] over the components, [new_comps]
    being the list built so far. *)
Fixpoint normpath_loop (slashes : nat) (comps new_comps : list string)
  : list string :=
  match comps with
  | [] => new_comps
  | comp :: rest =>
      if eqb comp "" || eqb comp "." then
        normpath_loop slashes rest new_comps
      else if negb (eqb comp "..")
              || ((slashes =? 0)%nat && (List.length new_comps =? 0)%nat)
              || (negb (List.length new_comps =? 0)%nat
                  && eqb (List.last new_comps "") "..") then
        normpath_loop slashes rest (new_comps ++ [comp])
      else if negb (List.length new_comps =? 0)%nat then
        normpath_loop slashes rest (List.removelast new_comps)
      else
        normpath_loop slashes rest new_comps
  end.

(** The number of leading slashes [normpath] keeps: POSIX allows one or
    two, and treats three or more as one. *)
Definition initial_slashes (path : string) : nat :=
  if startswith "/" path then
    if startswith "//" path && negb (startswith "///" path)
    then 2%nat else 1%nat
  else 0%nat.

(** The components [normpath] keeps. *)
Definition norm_comps (path : string) : list string :=
  normpath_loop (initial_slashes path) (split sep path) [].

(** [os.path.normpath(path)] *)
Definition normpath (path : string) : string :=
  if eqb path "" then "."
  else
    let comps := norm_comps path in
    let path' := join "/" comps in
    let path' :=
      match initial_slashes path with
      | 0%nat => path'
      | 1%nat => String.append "/" path'
      | _ => String.append "//" path'
      end in
    if eqb path' "" then "." else path'.

(** [os.path.join(a, *p)] *)
Fixpoint path_join (a : string) (p : list string) : string :=
  match p with
  | [] => a
  | b :: rest =>
      if startswith "/" b then path_join b rest
      else if eqb a "" || endswith sep a then path_join (String.append a b) rest
      else path_join (String.append a (String.append "/" b)) rest
  end.

(** The [while] loop of [genericpath._splitext]: is there a character
    other than the dot among the [n] characters from index [i]? *)
Fixpoint has_non_dot (p : string) (i : Z) (n : nat) : bool :=
  match n with
  | O => false
  | S n' =>
      if negb (eqb (slice p i (i + 1)) ".") then true
      else has_non_dot p (i + 1) n'
  end.

(** [os.path.splitext(p)] *)
Definition splitext (p : string) : string * string :=
  let sepIndex := rfind sep p in
  let dotIndex := rfind "."%char p in
  if (sepIndex <? dotIndex)%Z
     && has_non_dot p (sepIndex + 1) (Z.to_nat (dotIndex - (sepIndex + 1)))
  then (slice p 0 dotIndex, slice_from p dotIndex)
  else (p, "").

(** [sphinx.util.docname_join(basedocname, docname)] *)
Definition docname_join (basedocname docname : string) : string :=
  slice_from (normpath (path_join (String.append "/" basedocname) [".."; docname])) 1.

End PosixPath.

Import PyStr PosixPath.

(* ===================================================================== *)
(** ** Docutils nodes *)
(* ===================================================================== *)

(** Attribute values stored on an element. *)
Inductive attr : Type :=
| AStr (s : string)
| ABool (b : bool)
| AList (l : list string).

(** Inline-level document nodes: [nodes.Text] and [nodes.Element] with its
    tag name, raw source, attribute dictionary and children.  Placeholders
    are not of this type (see [pending_xref]). *)
Inductive node : Type :=
| Text (s : string)
| Elem (e : element)
with element : Type :=
| mkElement (tag : string) (rawsource : string)
            (attributes : gmap string attr) (children : list node).

Definition tag_of (e : element) : string :=
  match e with mkElement t _ _ _ => t end.

Definition rawsource_of (e : element) : string :=
  match e with mkElement _ r _ _ => r end.

Definition attributes_of (e : element) : gmap string attr :=
  match e with mkElement _ _ a _ => a end.

Definition children_of (e : element) : list node :=
  match e with mkElement _ _ _ c => c end.

(** [e[k] = v] *)
Definition set_attr (k : string) (v : attr) (e : element) : element :=
  match e with mkElement t r a c => mkElement t r (<[k := v]> a) c end.

(** [e.get(k, d)] for a string-valued attribute. *)
Definition get_str (k : string) (d : string) (e : element) : string :=
  match attributes_of e !! k with
  | Some (AStr s) => s
  | _ => d
  end.

(** [e.get("classes", [])] *)
Definition get_classes (e : element) : list string :=
  match attributes_of e !! "classes" with
  | Some (AList l) => l
  | _ => []
  end.

(** [Node.astext()].  The elements of this type are [TextElement]s
    ([inline], [reference], [emphasis], [literal], ...), whose child text
    separator is the empty string; an [image] yields its [alt] text. *)
Fixpoint astext (n : node) : string :=
  match n with
  | Text s => s
  | Elem e => astext_element e
  end
with astext_element (e : element) : string :=
  match e with
  | mkElement t _ a c =>
      if String.eqb t "image" then
        match a !! "alt" with Some (AStr s) => s | _ => "" end
      else String.concat "" (List.map astext c)
  end.

(** [sphinx.util.nodes.clean_astext]: the text with images blanked and
    [raw] nodes removed. *)
Fixpoint clean_astext_node (n : node) : string :=
  match n with
  | Text s => s
  | Elem e => clean_astext e
  end
with clean_astext (e : element) : string :=
  match e with
  | mkElement t _ _ c =>
      if String.eqb t "image" || String.eqb t "raw" then ""
      else String.concat "" (List.map clean_astext_node c)
  end.

(** [nodes.inline(rawsource, text, **attributes)]: a [TextElement] gets a
    [Text] child only for a non-empty [text]. *)
Definition inline (rawsource text : string) (attributes : gmap string attr)
  : element :=
  mkElement "inline" rawsource attributes
            (if String.eqb text "" then [] else [Text text]).

(** [el.extend(items)] *)
Definition extend (e : element) (items : list node) : element :=
  match e with mkElement t r a c => mkElement t r a (c ++ items) end.

(** [isinstance(el[0], nodes.Element)] guarded by [len(el) > 0]. *)
Definition first_child_element (e : element) : option element :=
  match children_of e with
  | Elem c :: _ => Some c
  | _ => None
  end.

(** [el[0] = c] *)
Definition set_first_child (c : element) (e : element) : element :=
  match e with
  | mkElement t r a (_ :: rest) => mkElement t r a (Elem c :: rest)
  | _ => e
  end.

(** ** The placeholder: [sphinx.addnodes.pending_xref]

    The parser builds it with the attributes below and one [inline] child
    holding the rendered link text; [refexplicit] tells whether the author
    wrote any. *)
Record pending_xref : Type := mkXref {
  reftype : string;
  reftarget : string;
  refdoc : option string;
  refdomain : option string;
  refexplicit : bool;
  refwarn : bool;
  content : element          (* node[0] *)
}.

(** [node.astext()] of a placeholder: the text of its only child. *)
Definition xref_astext (x : pending_xref) : string :=
  astext_element (content x).

Definition set_reftype (t : string) (x : pending_xref) : pending_xref :=
  {| reftype := t; reftarget := reftarget x; refdoc := refdoc x;
     refdomain := refdomain x; refexplicit := refexplicit x;
     refwarn := refwarn x; content := content x |}.

Definition set_refdomain (d : string) (x : pending_xref) : pending_xref :=
  {| reftype := reftype x; reftarget := reftarget x; refdoc := refdoc x;
     refdomain := Some d; refexplicit := refexplicit x;
     refwarn := refwarn x; content := content x |}.

(** The document tree the transform runs on: block structure ([DElem]),
    placeholders ([DXref]) and placeholder-free inline material ([DNode]),
    which is also what a placeholder is replaced by. *)
Inductive dnode : Type :=
| DNode (n : node)
| DXref (x : pending_xref)
| DElem (tag : string) (attributes : gmap string attr) (children : list dnode).

(* ===================================================================== *)
(** ** Exceptions and the resolver monad *)
(* ===================================================================== *)

(** The two exceptions the resolver handles. *)
Inductive exn : Type :=
| NoUri
| NotImplementedError.

Inductive outcome (A : Type) : Type :=
| Ok (a : A)
| Raise (e : exn).
Arguments Ok {A} a.
Arguments Raise {A} e.

(** What a capability that may find its destination unaddressable gives:
    a value, or the [NoUri] signal. *)
Inductive signal (A : Type) : Type :=
| Done (a : A)
| NoUriSignal.
Arguments Done {A} a.
Arguments NoUriSignal {A}.

(** Computations over a state [S] that may raise; the state survives a
    raise, as Python's heap does. *)
Definition M (S A : Type) : Type := S -> outcome A * S.

Definition ret {S A} (a : A) : M S A := fun s => (Ok a, s).

Definition raise {S A} (e : exn) : M S A := fun s => (Raise e, s).

Definition bind {S A B} (m : M S A) (k : A -> M S B) : M S B :=
  fun s =>
    match m s with
    | (Ok a, s') => k a s'
    | (Raise e, s') => (Raise e, s')
    end.

Declare Scope monad_scope.
Delimit Scope monad_scope with monad.
Notation "'let*' x ':=' m 'in' k" := (bind m (fun x => k))
  (at level 10, x pattern, m at level 100, k at level 200) : monad_scope.
Notation "m ';;' k" := (bind m (fun _ => k))
  (at level 100, k at level 200, right associativity) : monad_scope.
Open Scope monad_scope.

(** [try: body / except e: handler] *)
Definition try_except {S A} (body : M S A) (e : exn) (handler : M S A)
  : M S A :=
  fun s =>
    match body s with
    | (Ok a, s') => (Ok a, s')
    | (Raise e', s') =>
        match e, e' with
        | NoUri, NoUri | NotImplementedError, NotImplementedError => handler s'
        | _, _ => (Raise e', s')
        end
    end.

(** [try: body / finally: final] *)
Definition try_finally {S A} (body : M S A) (final : M S unit) : M S A :=
  fun s =>
    match body s with
    | (r, s') =>
        match final s' with
        | (Ok _, s'') => (r, s'')
        | (Raise e, s'') => (Raise e, s'')
        end
    end.

Definition get {S} : M S S := fun s => (Ok s, s).

Definition modify {S} (f : S -> S) : M S unit := fun s => (Ok tt, f s).

Definition of_signal {S A} (r : signal A) : M S A :=
  match r with
  | Done a => ret a
  | NoUriSignal => raise NoUri
  end.

(** [for x in l: acc = body(acc, x)]: a loop that grows an accumulator. *)
Fixpoint fold_loop {S A B} (body : B -> A -> M S B) (l : list A) (acc : B)
  : M S B :=
  match l with
  | [] => ret acc
  | x :: rest => let* acc' := body acc x in fold_loop body rest acc'
  end.

(* ===================================================================== *)
(** ** Sphinx: logger, configuration, domains, application *)
(* ===================================================================== *)

(** One call of [logger.warning(msg, location=..., type=..., subtype=...)]. *)
Record log_record : Type := mkRecord {
  msg : string;
  log_type : string;
  log_subtype : string;
  location : option pending_xref
}.

(** The logger: the records emitted so far, and the messages that
    [sphinx.util.logging.OnceFilter] has already let through. *)
Record logger : Type := mkLogger {
  records : list log_record;
  once_seen : gset string
}.

Definition empty_logger : logger := {| records := []; once_seen := ∅ |}.

(** [logger.warning(...)]; with [once=True] a message already seen is
    dropped by the filter. *)
Definition warning (m t st : string) (loc : option pending_xref) (once : bool)
  : M logger unit :=
  fun lg =>
    let r := {| msg := m; log_type := t; log_subtype := st; location := loc |} in
    if once then
      if bool_decide (m ∈ once_seen lg) then (Ok tt, lg)
      else (Ok tt, {| records := records lg ++ [r];
                      once_seen := {[m]} ∪ once_seen lg |})
    else (Ok tt, {| records := records lg ++ [r];
                    once_seen := once_seen lg |}).

(** [env.config] as far as the resolver reads it. *)
Record Config : Type := mkConfig {
  myst_heading_anchors : option nat;
  myst_ref_domains : option (list string);
  source_suffix : list string
}.

(** [sphinx.domains.std.StandardDomain]: the kinds in iteration order, the
    role of each kind, the object index and the two label registries. *)
Record StandardDomain : Type := mkStd {
  object_types : list string;
  role_for_objtype : string -> string;
  objects : gmap (string * string) (string * string);
  labels : gmap string (string * string * string);
  anonlabels : gmap string (string * string)
}.

(** Any other [sphinx.domains.Domain], through the two methods the resolver
    calls.  [resolve_any_xref fromdocname target node contnode] may raise
    [NotImplementedError] (the base class does) or [NoUri];
    [resolve_xref fromdocname typ target node contnode] may signal [NoUri]. *)
Record Domain : Type := mkDomain {
  name : string;
  module_name : string;                    (* domain.__module__ *)
  roles : list string;
  resolve_any_xref :
    string -> string -> pending_xref -> element ->
    outcome (list (string * element));
  resolve_xref :
    string -> string -> string -> pending_xref -> element ->
    signal (option element)
}.

(** A listener of the [missing-reference] event. *)
Definition handler : Type := pending_xref -> element -> signal (option element).

(** [self]: the environment, the builder and the application, as far as
    [MystReferenceResolver] uses them.  [titles] is total: Sphinx records a
    title node for every document it reads.  [missing_reference_warning
    refdoc typ target node] is the decision of the inherited
    [warn_missing_reference] (nit-picky mode, [refwarn], ignore lists): the
    message to log, or [None] to stay silent. *)
Record Resolver : Type := mkResolver {
  config : Config;
  env_docname : string;
  all_docs : gset string;
  titles : string -> element;
  doc2path : string -> string;             (* env.doc2path(_, base=False) *)
  std : StandardDomain;
  domains : list Domain;                   (* env.domains.values() *)
  get_relative_uri : string -> string -> signal string;
  missing_reference : list handler;        (* in dispatch order *)
  missing_reference_warning :
    string -> string -> string -> pending_xref -> option string
}.

(** [sphinx.util.nodes.make_refnode(builder, fromdocname, todocname,
    targetid, child)] *)
Definition make_refnode {S} (self : Resolver)
  (fromdocname todocname targetid : string) (child : element) : M S element :=
  let node := mkElement "reference" "" {[ "internal" := ABool true ]} [] in
  let* node :=
    if String.eqb fromdocname todocname && negb (String.eqb targetid "") then
      ret (set_attr "refid" (AStr targetid) node)
    else if negb (String.eqb targetid "") then
      let* uri := of_signal (get_relative_uri self fromdocname todocname) in
      ret (set_attr "refuri"
             (AStr (String.append uri (String.append "#" targetid))) node)
    else
      let* uri := of_signal (get_relative_uri self fromdocname todocname) in
      ret (set_attr "refuri" (AStr uri) node) in
  ret (extend node [Elem child]).

(** [EventManager.emit]: every listener is called, in order; a [NoUri]
    raised by one of them is re-raised. *)
Fixpoint emit {S} (hs : list handler) (node : pending_xref) (contnode : element)
  : M S (list (option element)) :=
  match hs with
  | [] => ret []
  | h :: rest =>
      let* r := of_signal (h node contnode) in
      let* rs := emit rest node contnode in
      ret (r :: rs)
  end.

(** The first result that is not [None]. *)
Fixpoint first_result (rs : list (option element)) : option element :=
  match rs with
  | [] => None
  | Some r :: _ => Some r
  | None :: rest => first_result rest
  end.

(** [app.emit_firstresult("missing-reference", env, node, contnode)] *)
Definition emit_firstresult {S} (self : Resolver) (node : pending_xref)
  (contnode : element) : M S (option element) :=
  let* rs := emit (missing_reference self) node contnode in
  ret (first_result rs).

(* ===================================================================== *)
(** ** [MystReferenceResolver] *)
(* ===================================================================== *)

(** A candidate: the [domain:role] tag and the node built for it. *)
Definition candidate : Type := (string * element)%type.

(** [node.get("refdoc", fromdocname)] *)
Definition refdoc_or (x : pending_xref) (fromdocname : string) : string :=
  match refdoc x with
  | Some d => d
  | None => fromdocname
  end.

(** Line 231: [target or node["reftarget"].lower()], the key of the label
    lookup. *)
Definition ref_key (node : pending_xref) (target : option string) : string :=
  match target with
  | Some t => if String.eqb t "" then lower (reftarget node) else t
  | None => lower (reftarget node)
  end.

(** Lines 233-244: the registry entry under the key [target] (the empty
    strings when there is none) and the label of the reference. *)
Definition ref_lookup (self : Resolver) (node : pending_xref) (target : string)
  : string * string * element :=
  let stddomain := std self in
  if refexplicit node then
    (* reference to anonymous label; the reference uses the supplied
       link caption *)
    let '(docname, labelid) :=
      match anonlabels stddomain !! target with
      | Some v => v
      | None => ("", "")
      end in
    let sectname := xref_astext node in
    let innernode := inline sectname "" ∅ in
    (docname, labelid, extend innernode (children_of (content node)))
  else
    (* reference to named label; the final node will contain the section
       name after the label *)
    let '(docname, labelid, sectname) :=
      match labels stddomain !! target with
      | Some v => v
      | None => ("", "", "")
      end in
    (docname, labelid, inline sectname sectname ∅).

(** [_resolve_ref_nested(node, fromdocname, target=None)] *)
Definition _resolve_ref_nested {S} (self : Resolver) (node : pending_xref)
  (fromdocname : string) (target : option string) : M S (option element) :=
  let target := ref_key node target in
  let '(docname, labelid, innernode) := ref_lookup self node target in
  if String.eqb docname "" then ret None
  else
    let* r := make_refnode self fromdocname docname labelid innernode in
    ret (Some r).

(** [_resolve_anchor(node, fromdocname)] *)
Definition _resolve_anchor {S} (self : Resolver) (node : pending_xref)
  (fromdocname : string) : M S (option element) :=
  match myst_heading_anchors (config self) with
  | None => ret None
  | Some _ =>
      let target := reftarget node in
      if negb (contains "#" target) then ret None
      else
        let '(rel_path, anchor) :=
          match rsplit1 "#" target with
          | Some pa => pa
          | None => (target, "")
          end in
        let rel_path := normpath rel_path in
        let doc_path :=
          if String.eqb rel_path "." then
            doc2path self (refdoc_or node fromdocname)
          else
            normpath (path_join (refdoc_or node fromdocname) [".."; rel_path]) in
        _resolve_ref_nested self node fromdocname
          (Some (String.append doc_path (String.append "#" anchor)))
  end.

(** The document name [_resolve_doc_nested] settles on: the joined name, or
    the joined name without its extension when the joined name is unknown
    and the extension is a source suffix. *)
Definition doc_candidate (self : Resolver) (node : pending_xref)
  (fromdocname : string) : string :=
  let refdoc := refdoc_or node fromdocname in
  let docname := docname_join refdoc (reftarget node) in
  if negb (bool_decide (docname ∈ all_docs self))
     && bool_decide ((splitext docname).2 ∈ source_suffix (config self))
  then (splitext docname).1
  else docname.

(** Lines 272-280: the label of a document reference. *)
Definition doc_innernode (self : Resolver) (node : pending_xref)
  (docname : string) : element :=
  if refexplicit node then
    (* reference with explicit title *)
    let caption := xref_astext node in
    let innernode := inline caption "" {[ "classes" := AList ["doc"] ]} in
    extend innernode (children_of (content node))
  else
    let caption := clean_astext (titles self docname) in
    inline caption caption {[ "classes" := AList ["doc"] ]}.

(** [_resolve_doc_nested(node, fromdocname)] *)
Definition _resolve_doc_nested {S} (self : Resolver) (node : pending_xref)
  (fromdocname : string) : M S (option element) :=
  let docname := doc_candidate self node fromdocname in
  if negb (bool_decide (docname ∈ all_docs self)) then ret None
  else
    let innernode := doc_innernode self node docname in
    let* r := make_refnode self fromdocname docname "" innernode in
    ret (Some r).

(** [ref_domains is None or name in ref_domains] *)
Definition domain_allowed (ref_domains : option (list string)) (nm : string)
  : bool :=
  match ref_domains with
  | None => true
  | Some l => bool_decide (nm ∈ l)
  end.

(** The body of [for objtype in stddomain.object_types]. *)
Definition std_object_step {S} (self : Resolver) (refdoc target : string)
  (contnode : element) (results : list candidate) (objtype : string)
  : M S (list candidate) :=
  let stddomain := std self in
  let key :=
    if String.eqb objtype "term" then (objtype, lower target)
    else (objtype, target) in
  match objects stddomain !! key with
  | Some (docname, labelid) =>
      let domain_role :=
        String.append "std:" (role_for_objtype stddomain objtype) in
      let* ref_node := make_refnode self refdoc docname labelid contnode in
      ret (results ++ [(domain_role, ref_node)])
  | None => ret results
  end.

(** The warning about a domain without [resolve_any_xref]. *)
Definition noncompliant_msg (domain : Domain) : string :=
  String.concat ""
    ["Domain '"; module_name domain; "::"; name domain;
     "' has not implemented a `resolve_any_xref` method [myst.domains]"].

(** The body of [for role in domain.roles]. *)
Definition role_step {S} (domain : Domain) (refdoc target : string)
  (node : pending_xref) (contnode : element)
  (results : list candidate) (role : string) : M S (list candidate) :=
  let* res := of_signal (resolve_xref domain refdoc role target node contnode) in
  match res with
  | Some r =>
      match first_child_element r with
      | Some _ =>
          ret (results ++
                 [(String.append (name domain) (String.append ":" role), r)])
      | None => ret results
      end
  | None => ret results
  end.

(** [domain.resolve_any_xref(...)] as a computation. *)
Definition call_resolve_any_xref {S} (domain : Domain) (refdoc target : string)
  (node : pending_xref) (contnode : element) : M S (list candidate) :=
  fun s => (resolve_any_xref domain refdoc target node contnode, s).

(** The body of [for domain in self.env.domains.values()]. *)
Definition domain_step (ref_domains : option (list string))
  (refdoc target : string) (node : pending_xref) (contnode : element)
  (results : list candidate) (domain : Domain) : M logger (list candidate) :=
  if String.eqb (name domain) "std" then ret results
  else if negb (domain_allowed ref_domains (name domain)) then ret results
  else
    try_except
      (let* found := call_resolve_any_xref domain refdoc target node contnode in
       ret (results ++ found))
      NotImplementedError
      ((if negb (startswith "sphinx." (module_name domain)) then
          warning (noncompliant_msg domain) "myst" "domains" None true
        else ret tt) ;;
       fold_loop (role_step domain refdoc target node contnode)
                 (roles domain) results).

(** [stringify(name, node)] *)
Definition stringify (c : candidate) : string :=
  let '(nm, nd) := c in
  let reftitle := get_str "reftitle" (astext_element nd) nd in
  String.concat "" [":"; nm; ":`"; reftitle; "`"].

(** The ambiguity message. *)
Definition ambiguous_msg (target : string) (results : list candidate) : string :=
  let candidates := join " or " (List.map stringify results) in
  String.concat ""
    ["more than one target found for 'myst' cross-reference "; target;
     ": could be "; candidates; " [myst.ref]"].

(** Lines 189-199: the first candidate, its first child tagged with the
    classes of the role that produced it. *)
Definition finish (c : candidate) : element :=
  let '(res_role, newnode) := c in
  let res_domain := List.hd "" (split ":" res_role) in
  match first_child_element newnode with
  | Some child =>
      set_first_child
        (set_attr "classes"
           (AList (get_classes child ++ [res_domain; replace ":" "-" res_role]))
           child)
        newnode
  | None => newnode
  end.

(** Lines 100-117: the anchor, or else the named label and the document. *)
Definition anchor_label_doc {S} (self : Resolver) (refdoc : string)
  (node : pending_xref) : M S (list candidate) :=
  let results : list candidate := [] in
  let* res_anchor := _resolve_anchor self node refdoc in
  match res_anchor with
  | Some a => ret (results ++ [("std:doc", a)])
  | None =>
      (* if we've already found an anchored doc, don't search in the
         std:ref/std:doc (leads to duplication) *)
      let* res := _resolve_ref_nested self node refdoc None in
      let results :=
        match res with
        | Some r => results ++ [("std:ref", r)]
        | None => results
        end in
      let* res := _resolve_doc_nested self node refdoc in
      ret (match res with
           | Some r => results ++ [("std:doc", r)]
           | None => results
           end)
  end.

(** Lines 124-137: any other standard reference object. *)
Definition std_objects {S} (self : Resolver) (refdoc target : string)
  (contnode : element) (results : list candidate) : M S (list candidate) :=
  let ref_domains := myst_ref_domains (config self) in
  if domain_allowed ref_domains "std" then
    fold_loop (std_object_step self refdoc target contnode)
              (object_types (std self)) results
  else ret results.

(** Lines 139-167: any other allowed reference domain. *)
Definition other_domains (self : Resolver) (refdoc target : string)
  (node : pending_xref) (contnode : element) (results : list candidate)
  : M logger (list candidate) :=
  let ref_domains := myst_ref_domains (config self) in
  fold_loop (domain_step ref_domains refdoc target node contnode)
            (domains self) results.

(** Lines 100-167: the candidates, in the order they are appended. *)
Definition collect (self : Resolver) (refdoc : string) (node : pending_xref)
  (contnode : element) : M logger (list candidate) :=
  let target := reftarget node in
  let* results := anchor_label_doc self refdoc node in
  let* results := std_objects self refdoc target contnode results in
  other_domains self refdoc target node contnode results.

(** Lines 169-199: the choice among the candidates. *)
Definition select (node : pending_xref) (results : list candidate)
  : M logger (option element) :=
  match results with
  | [] => ret None
  | first :: _ =>
      (if (1 <? List.length results)%nat then
         warning (ambiguous_msg (reftarget node) results)
                 "myst" "ref" (Some node) false
       else ret tt) ;;
      ret (Some (finish first))
  end.

(** [resolve_myst_ref(refdoc, node, contnode)] *)
Definition resolve_myst_ref (self : Resolver) (refdoc : string)
  (node : pending_xref) (contnode : element) : M logger (option element) :=
  let* results := collect self refdoc node contnode in
  select node results.

(** *** [run]

    While one placeholder is processed the state is the logger together with
    the placeholder itself, whose [reftype] and [refdomain] the loop body
    assigns to. *)
Record run_state : Type := mkRunState {
  rs_log : logger;
  rs_node : pending_xref
}.

(** A logger computation inside the loop body. *)
Definition lift_log {A} (m : M logger A) : M run_state A :=
  fun s =>
    match m (rs_log s) with
    | (r, lg) => (r, {| rs_log := lg; rs_node := rs_node s |})
    end.

(** [node[k] = v] *)
Definition assign (f : pending_xref -> pending_xref) : M run_state unit :=
  modify (fun s => {| rs_log := rs_log s; rs_node := f (rs_node s) |}).

Definition current_node : M run_state pending_xref :=
  fun s => (Ok (rs_node s), s).

(** [self.warn_missing_reference(refdoc, typ, target, node, None)], inherited
    from [ReferencesResolver]: at most one
    [logger.warning(msg, location=node, type="ref", subtype=typ)]. *)
Definition warn_missing_reference (self : Resolver)
  (refdoc typ target : string) (node : pending_xref) : M logger unit :=
  match missing_reference_warning self refdoc typ target node with
  | Some m => warning m "ref" typ (Some node) false
  | None => ret tt
  end.

(** Lines 44-84: the body of the loop for one [myst] placeholder; the value
    is the argument of [node.replace_self]. *)
Definition resolve_node (self : Resolver) : M run_state element :=
  let* node := current_node in
  let contnode := content node in              (* node[0].deepcopy() *)
  let target := reftarget node in
  let refdoc := refdoc_or node (env_docname self) in
  let* newnode :=
    try_except
      (let* newnode :=
         lift_log (resolve_myst_ref self refdoc node contnode) in
       let* newnode :=
         match newnode with
         | None =>
             assign (set_reftype "any") ;;
             try_finally
               (let* node := current_node in
                emit_firstresult self node contnode)
               (assign (set_reftype "myst"))
         | Some _ => ret newnode
         end in
       match newnode with
       | None =>
           assign (set_refdomain "") ;;
           let* node := current_node in
           lift_log (warn_missing_reference self refdoc
                       (reftype node) target node) ;;
           ret newnode
       | Some _ => ret newnode
       end)
      NoUri
      (ret (Some contnode)) in
  (* newnode or contnode *)
  ret (match newnode with
       | Some n => n
       | None => contnode
       end).

(** The state of the whole pass: the logger, and the calls of
    [replace_self] made so far (the placeholder and what replaced it). *)
Record pass_state : Type := mkPassState {
  ps_log : logger;
  ps_replaced : list (pending_xref * element)
}.

(** [node.replace_self(new)]: [new] takes the placeholder's position. *)
Definition replace_self (x : pending_xref) (new : element)
  : M pass_state dnode :=
  fun s =>
    (Ok (DNode (Elem new)),
     {| ps_log := ps_log s; ps_replaced := ps_replaced s ++ [(x, new)] |}).

(** One iteration of the loop of [run] on the placeholder [x]. *)
Definition run_xref (self : Resolver) (x : pending_xref) : M pass_state dnode :=
  if negb (String.eqb (reftype x) "myst") then ret (DXref x)
  else
    let* new :=
      (fun s =>
         match resolve_node self {| rs_log := ps_log s; rs_node := x |} with
         | (r, st) =>
             (r, {| ps_log := rs_log st; ps_replaced := ps_replaced s |})
         end) in
    replace_self x new.

(** [run]: the placeholders are visited in document order, each subtree
    rebuilt around the replacements. *)
Fixpoint run_dnode (self : Resolver) (t : dnode) : M pass_state dnode :=
  match t with
  | DNode n => ret (DNode n)
  | DXref x => run_xref self x
  | DElem tag a ch =>
      let* ch' :=
        (fix run_children (l : list dnode) : M pass_state (list dnode) :=
           match l with
           | [] => ret []
           | c :: rest =>
               let* c' := run_dnode self c in
               let* rest' := run_children rest in
               ret (c' :: rest')
           end) ch in
      ret (DElem tag a ch')
  end.

Definition run (self : Resolver) (document : dnode) (lg : logger)
  : outcome dnode * pass_state :=
  run_dnode self document {| ps_log := lg; ps_replaced := [] |}.



(* ===================================================================== *)
(** ** A small project, used by the examples *)
(* ===================================================================== *)

Module Sample.

Definition cfg : Config :=
  {| myst_heading_anchors := Some 2%nat;
     myst_ref_domains := None;
     source_suffix := [".md"; ".rst"] |}.

(** The standard domain of the project.  Its glossary has, among its
    terms, one spelled like the anchored target [./intro.md#overview]. *)
Definition std_domain : StandardDomain :=
  {| object_types := ["term"; "cmdoption"];
     role_for_objtype :=
       fun objtype => if String.eqb objtype "cmdoption" then "option" else objtype;
     objects :=
       {[ ("cmdoption", "setup") := ("index", "cmdoption-setup");
          ("term", "./intro.md#overview") := ("index", "term-overview") ]};
     labels :=
       {[ "setup" := ("guide/intro", "setup", "Setup section");
          "guide/intro.md#overview" := ("guide/intro", "overview", "Overview") ]};
     anonlabels :=
       {[ "setup" := ("guide/intro", "setup");
          "guide/intro.md#overview" := ("guide/intro", "overview") ]} |}.

Definition self : Resolver :=
  {| config := cfg;
     env_docname := "guide/start";
     all_docs := {[ "index"; "guide/start"; "guide/intro" ]};
     titles := fun d => mkElement "title" "" ∅ [Text (String.append "About " d)];
     doc2path := fun d => String.append d ".md";
     std := std_domain;
     domains := [];
     get_relative_uri := fun _ todoc => Done (String.append todoc ".html");
     missing_reference := [];
     missing_reference_warning :=
       fun _ typ target node =>
         if refwarn node
         then Some (String.concat "" [typ; " reference target not found: "; target])
         else None |}.

(** [[text](target)] as the parser leaves it, with [text] a list of inline
    nodes. *)
Definition link (target : string) (text : list node) : pending_xref :=
  {| reftype := "myst"; reftarget := target; refdoc := Some "guide/start";
     refdomain := None;
     refexplicit := negb (Nat.eqb (List.length text) 0);
     refwarn := true;
     content :=
       mkElement "inline" "" {[ "classes" := AList ["xref"; "myst"] ]} text |}.

Definition with_domains (ds : list Domain) (r : Resolver) : Resolver :=
  {| config := config r; env_docname := env_docname r; all_docs := all_docs r;
     titles := titles r; doc2path := doc2path r; std := std r;
     domains := ds; get_relative_uri := get_relative_uri r;
     missing_reference := missing_reference r;
     missing_reference_warning := missing_reference_warning r |}.

Definition with_handlers (hs : list handler) (r : Resolver) : Resolver :=
  {| config := config r; env_docname := env_docname r; all_docs := all_docs r;
     titles := titles r; doc2path := doc2path r; std := std r;
     domains := domains r; get_relative_uri := get_relative_uri r;
     missing_reference := hs;
     missing_reference_warning := missing_reference_warning r |}.

(** An extension domain that never implemented [resolve_any_xref] and whose
    only role finds nothing. *)
Definition legacy_domain : Domain :=
  {| name := "legacy"; module_name := "ext.legacy"; roles := ["obj"];
     resolve_any_xref := fun _ _ _ _ => Raise NotImplementedError;
     resolve_xref := fun _ _ _ _ _ => Done None |}.

(** A domain whose destinations cannot be addressed by this builder. *)
Definition remote_domain : Domain :=
  {| name := "remote"; module_name := "ext.remote"; roles := [];
     resolve_any_xref := fun _ _ _ _ => Raise NoUri;
     resolve_xref := fun _ _ _ _ _ => NoUriSignal |}.

End Sample.

(* ===================================================================== *)
(** ** Predicates used in the statements *)
(* ===================================================================== *)

(** A computation is stateless when it gives one result whatever the
    state, and gives the state back. *)
Definition stateless {S A} (m : M S A) : Prop :=
  exists r, forall s, m s = (r, s).




(** The node of a computation's result, for the examples. *)
Definition the_node {S} (r : outcome (option element) * S) : element :=
  match r with
  | (Ok (Some e), _) => e
  | _ => mkElement "" "" ∅ []
  end.

(** The label of a resolved reference: the element that is its only
    child. *)
Definition label_of (r : element) : option element :=
  match children_of r with
  | [Elem l] => Some l
  | _ => None
  end.

(** *** Candidate lists *)

(** A loop body that only ever appends to the list it is given. *)
Definition appending {S A B} (body : list B -> A -> M S (list B)) : Prop :=
  forall acc x s,
    body acc x s = (let* extra := body [] x in ret (acc ++ extra)) s.

(** [loop_hits body l s hits s']: running [body] over [l] from the state
    [s] succeeds and ends in [s'], and [hits] lists, element by element and
    in order, what each iteration contributes. *)
Inductive loop_hits {S A B} (body : list B -> A -> M S (list B))
  : list A -> S -> list (list B) -> S -> Prop :=
| loop_hits_nil s : loop_hits body [] s [] s
| loop_hits_cons x l s h s1 hs s2 :
    body [] x s = (Ok h, s1) ->
    loop_hits body l s1 hs s2 ->
    loop_hits body (x :: l) s (h :: hs) s2.

(** [[(tag, r)]] for a result, nothing for [None]. *)
Definition tagged (tag : string) (r : option element) : list candidate :=
  match r with
  | Some e => [(tag, e)]
  | None => []
  end.

(** *** Diagnostics *)

(** The record of the warning about the domain [d]. *)
Definition domain_record (d : Domain) : log_record :=
  {| msg := noncompliant_msg d; log_type := "myst";
     log_subtype := "domains"; location := None |}.

(** The record of the ambiguity warning. *)
Definition ambiguity_record (node : pending_xref) (results : list candidate)
  : log_record :=
  {| msg := ambiguous_msg (reftarget node) results; log_type := "myst";
     log_subtype := "ref"; location := Some node |}.

(** Is the record a noncompliant-domain warning ([myst.domains])? *)
Definition is_domains_record (r : log_record) : bool :=
  String.eqb (log_type r) "myst" && String.eqb (log_subtype r) "domains".

(** Is the record an ambiguity warning ([myst.ref])? *)
Definition is_ambiguity_record (r : log_record) : bool :=
  String.eqb (log_type r) "myst" && String.eqb (log_subtype r) "ref".

(** [lg] with one more record. *)
Definition log_add (r : log_record) (lg : logger) : logger :=
  {| records := records lg ++ [r]; once_seen := once_seen lg |}.

(** The first warning about [d]: the record is emitted and the message
    remembered. *)
Definition log_warn_domain (d : Domain) (lg : logger) : logger :=
  {| records := records lg ++ [domain_record d];
     once_seen := {[noncompliant_msg d]} ∪ once_seen lg |}.


(** The same, restricted to the warnings about domains. *)
Inductive domain_log_step : logger -> logger -> Prop :=
| domain_step_warn d lg :
    noncompliant_msg d ∉ once_seen lg ->
    domain_log_step lg (log_warn_domain d lg).

(** The [once] discipline: the [myst.domains] records carry pairwise
    different messages, all of them remembered by the filter. *)
Definition once_ok (lg : logger) : Prop :=
  NoDup (List.map msg (List.filter is_domains_record (records lg))) /\
  forall r, In r (records lg) -> is_domains_record r = true ->
            msg r ∈ once_seen lg.


(** The candidates of the first tier of [collect]: the anchor alone when
    anchor resolution succeeds; otherwise the named label, then the
    document, each if found. *)
Definition first_tier (self : Resolver) (refdoc : string) (node : pending_xref)
  (lg : logger) (tier : list candidate) : Prop :=
  match fst (_resolve_anchor self node refdoc lg) with
  | Ok (Some a) => tier = [("std:doc", a)]
  | Ok None =>
      exists rl rd,
        fst (_resolve_ref_nested self node refdoc None lg) = Ok rl /\
        fst (_resolve_doc_nested self node refdoc lg) = Ok rd /\
        tier = tagged "std:ref" rl ++ tagged "std:doc" rd
  | Raise _ => False
  end.

(** The kinds the standard-domain object search goes through. *)
Definition searched_kinds (self : Resolver) : list string :=
  if domain_allowed (myst_ref_domains (config self)) "std"
  then object_types (std self)
  else [].

(** The candidates of a computation's result, for the examples. *)
Definition the_candidates {S} (r : outcome (list candidate) * S)
  : list candidate :=
  match r with
  | (Ok l, _) => l
  | _ => []
  end.

(** *** The outcomes of one placeholder *)

(** What the listeners of [missing-reference] give for a placeholder, the
    state left aside. *)
Definition handlers_outcome (self : Resolver) (node : pending_xref)
  (contnode : element) : outcome (list (option element)) :=
  fst (emit (S := unit) (missing_reference self) node contnode tt).

(** The placeholder as the listeners see it, and as it is afterwards. *)
Definition as_any (x : pending_xref) : pending_xref := set_reftype "any" x.

Definition restored (x : pending_xref) : pending_xref :=
  set_reftype "myst" (as_any x).

(** [resolution self x lg new s']: the ways the loop body can go for the
    placeholder [x] from the logger [lg], with the replacement [new] and the
    final state [s']. *)
Inductive resolution (self : Resolver) (x : pending_xref) (lg : logger)
  : element -> run_state -> Prop :=
| resolved_builtin n lg1 :
    resolve_myst_ref self (refdoc_or x (env_docname self)) x (content x) lg
    = (Ok (Some n), lg1) ->
    resolution self x lg n {| rs_log := lg1; rs_node := x |}
| resolved_by_handler n rs lg1 :
    resolve_myst_ref self (refdoc_or x (env_docname self)) x (content x) lg
    = (Ok None, lg1) ->
    handlers_outcome self (as_any x) (content x) = Ok rs ->
    first_result rs = Some n ->
    resolution self x lg n {| rs_log := lg1; rs_node := restored x |}
| unresolved rs lg1 lg2 :
    resolve_myst_ref self (refdoc_or x (env_docname self)) x (content x) lg
    = (Ok None, lg1) ->
    handlers_outcome self (as_any x) (content x) = Ok rs ->
    first_result rs = None ->
    warn_missing_reference self (refdoc_or x (env_docname self)) "myst"
      (reftarget x) (set_refdomain "" (restored x)) lg1 = (Ok tt, lg2) ->
    resolution self x lg (content x)
      {| rs_log := lg2; rs_node := set_refdomain "" (restored x) |}
| unaddressable_handler lg1 :
    resolve_myst_ref self (refdoc_or x (env_docname self)) x (content x) lg
    = (Ok None, lg1) ->
    handlers_outcome self (as_any x) (content x) = Raise NoUri ->
    resolution self x lg (content x)
      {| rs_log := lg1; rs_node := restored x |}
| unaddressable_builtin lg1 :
    resolve_myst_ref self (refdoc_or x (env_docname self)) x (content x) lg
    = (Raise NoUri, lg1) ->
    resolution self x lg (content x) {| rs_log := lg1; rs_node := x |}.

(** Two listeners for the examples: one that never answers, and one that
    answers with an external link when asked for a reference of the generic
    kind [any]. *)
Definition silent_handler : handler := fun _ _ => Done None.

Definition external_handler : handler :=
  fun node contnode =>
    if String.eqb (reftype node) "any" then
      Done (Some (mkElement "reference" ""
                    {[ "refuri" := AStr (String.append "https://example.org/"
                                           (reftarget node)) ]}
                    [Elem contnode]))
    else Done None.

(** A listener whose inventory cannot address the target. *)
Definition unaddressable_handler_ex : handler := fun _ _ => NoUriSignal.

(** *** The tree before and after the pass *)



(** The loop over the children of an element, as in [run_dnode]. *)
Fixpoint run_children (self : Resolver) (l : list dnode)
  : M pass_state (list dnode) :=
  match l with
  | [] => ret []
  | c :: rest =>
      let* c' := run_dnode self c in
      let* rest' := run_children self rest in
      ret (c' :: rest')
  end.

(* ===================================================================== *)
(** ** Further predicates: the pass as a whole *)
(* ===================================================================== *)




(** The record of the missing-reference warning with the message [m]. *)
Definition missing_record (x : pending_xref) (m : string) : log_record :=
  {| msg := m; log_type := "ref"; log_subtype := "myst"; location := Some x |}.

(** The three kinds of records the resolver emits. *)
Inductive diagnostic : log_record -> Prop :=
| diagnostic_domain d : diagnostic (domain_record d)
| diagnostic_ambiguity x results :
    (2 <= List.length results)%nat ->
    diagnostic (ambiguity_record x results)
| diagnostic_missing x m : diagnostic (missing_record x m).

(** [lg'] is [lg] with diagnostics appended and nothing forgotten. *)
Definition log_grows (lg lg' : logger) : Prop :=
  exists added,
    records lg' = records lg ++ added /\
    Forall diagnostic added /\
    once_seen lg ⊆ once_seen lg'.

(** What one placeholder [x] may leave in the logger after the warnings
    about domains (logger [lgc]): nothing more, one ambiguity warning, or
    one missing-reference warning. *)
Inductive placeholder_tail (self : Resolver) (x : pending_xref)
  (lgc : logger) (new : element) : logger -> Prop :=
| tail_quiet : placeholder_tail self x lgc new lgc
| tail_ambiguous first second rest :
    new = finish first ->
    placeholder_tail self x lgc new
      (log_add (ambiguity_record x (first :: second :: rest)) lgc)
| tail_missing m :
    new = content x ->
    missing_reference_warning self (refdoc_or x (env_docname self)) "myst"
      (reftarget x) (set_refdomain "" (restored x)) = Some m ->
    placeholder_tail self x lgc new
      (log_add (missing_record (set_refdomain "" (restored x)) m) lgc).

(** Does the loop over the domains consult [d]?  Not the standard domain
    (done before), and not a domain left out of [myst_ref_domains]. *)
Definition participates (ref_domains : option (list string)) (d : Domain)
  : bool :=
  negb (String.eqb (name d) "std") && domain_allowed ref_domains (name d).

(** [r] with another allow-list. *)
Definition with_ref_domains (allowed : option (list string)) (r : Resolver)
  : Resolver :=
  {| config :=
       {| myst_heading_anchors := myst_heading_anchors (config r);
          myst_ref_domains := allowed;
          source_suffix := source_suffix (config r) |};
     env_docname := env_docname r; all_docs := all_docs r;
     titles := titles r; doc2path := doc2path r; std := std r;
     domains := domains r; get_relative_uri := get_relative_uri r;
     missing_reference := missing_reference r;
     missing_reference_warning := missing_reference_warning r |}.

(** The document name stored in the registry that [ref_lookup] reads for
    [node] at [key]; the empty string when there is no entry. *)
Definition registry_docname (self : Resolver) (node : pending_xref)
  (key : string) : string :=
  if refexplicit node then
    match anonlabels (std self) !! key with
    | Some (d, _) => d
    | None => ""
    end
  else
    match labels (std self) !! key with
    | Some (d, _, _) => d
    | None => ""
    end.

(** [r] with other listeners of [missing-reference]. *)
Definition with_listeners (hs : list handler) (r : Resolver) : Resolver :=
  {| config := config r; env_docname := env_docname r; all_docs := all_docs r;
     titles := titles r; doc2path := doc2path r; std := std r;
     domains := domains r; get_relative_uri := get_relative_uri r;
     missing_reference := hs;
     missing_reference_warning := missing_reference_warning r |}.

(** [x] with another target. *)
Definition with_target (t : string) (x : pending_xref) : pending_xref :=
  {| reftype := reftype x; reftarget := t; refdoc := refdoc x;
     refdomain := refdomain x; refexplicit := refexplicit x;
     refwarn := refwarn x; content := content x |}.

(* ===================================================================== *)
(** ** Further predicates: normalised paths *)
(* ===================================================================== *)


(* ===================================================================== *)
(** * Properties *)
(* ===================================================================== *)

(** ** Computations that leave the state alone *)

Lemma stateless_ret {S A} (a : A) : stateless (S := S) (ret a).
Proof. exists (Ok a). reflexivity. Qed.

Lemma stateless_raise {S A} (e : exn) : stateless (S := S) (A := A) (raise e).
Proof. exists (Raise e). reflexivity. Qed.

Lemma stateless_of_signal {S A} (r : signal A) : stateless (S := S) (of_signal r).
Proof. destruct r; [apply stateless_ret | apply stateless_raise]. Qed.

Lemma stateless_bind {S A B} (m : M S A) (k : A -> M S B) :
  stateless m -> (forall a, stateless (k a)) -> stateless (bind m k).
Proof.
  intros [r Hr] Hk. destruct r as [a | e].
  - destruct (Hk a) as [r' Hr']. exists r'. intros s.
    unfold bind. rewrite Hr. apply Hr'.
  - exists (Raise e). intros s. unfold bind. rewrite Hr. reflexivity.
Qed.

Lemma stateless_fold_loop {S A B} (body : B -> A -> M S B) (l : list A) :
  (forall acc x, stateless (body acc x)) ->
  forall acc, stateless (fold_loop body l acc).
Proof.
  intros Hbody. induction l as [| x rest IH]; intros acc; simpl.
  - apply stateless_ret.
  - apply stateless_bind; [apply Hbody | intros a; apply IH].
Qed.

Lemma stateless_state {S A} (m : M S A) s r s' :
  stateless m -> m s = (r, s') -> s' = s.
Proof. intros [r0 H] E. rewrite H in E. congruence. Qed.


Create HintDb stateless.
#[export] Hint Resolve stateless_ret stateless_raise stateless_of_signal
  : stateless.

Ltac stateless_step :=
  first
    [ apply stateless_ret
    | apply stateless_raise
    | apply stateless_of_signal
    | apply stateless_bind; [| intros ?]
    | apply stateless_fold_loop; intros ? ? ].

Lemma make_refnode_stateless {S} self fromdoc todoc targetid child :
  stateless (S := S) (make_refnode self fromdoc todoc targetid child).
Proof.
  unfold make_refnode.
  apply stateless_bind; [| intros ?; apply stateless_ret].
  destruct (_ && _); [apply stateless_ret |].
  destruct (negb _); repeat stateless_step.
Qed.

Lemma resolve_ref_nested_stateless {S} self node fromdoc target :
  stateless (S := S) (_resolve_ref_nested self node fromdoc target).
Proof.
  unfold _resolve_ref_nested.
  destruct (ref_lookup self node (ref_key node target)) as [[d l] inner].
  destruct (String.eqb d ""); [apply stateless_ret |].
  apply stateless_bind;
    [apply make_refnode_stateless | intros ?; apply stateless_ret].
Qed.

Lemma resolve_anchor_stateless {S} self node fromdoc :
  stateless (S := S) (_resolve_anchor self node fromdoc).
Proof.
  unfold _resolve_anchor.
  destruct (myst_heading_anchors _); [| apply stateless_ret].
  destruct (negb _); [apply stateless_ret |].
  destruct (rsplit1 _ _) as [[p a] |]; apply resolve_ref_nested_stateless.
Qed.

Lemma resolve_doc_nested_stateless {S} self node fromdoc :
  stateless (S := S) (_resolve_doc_nested self node fromdoc).
Proof.
  unfold _resolve_doc_nested.
  destruct (negb _); [apply stateless_ret |].
  apply stateless_bind;
    [apply make_refnode_stateless | intros ?; apply stateless_ret].
Qed.

Lemma std_object_step_stateless {S} self refdoc target contnode results objtype :
  stateless (S := S) (std_object_step self refdoc target contnode results objtype).
Proof.
  unfold std_object_step.
  destruct (objects (std self) !! _) as [[d l] |]; [| apply stateless_ret].
  apply stateless_bind;
    [apply make_refnode_stateless | intros ?; apply stateless_ret].
Qed.

Lemma role_step_stateless {S} domain refdoc target node contnode results role :
  stateless (S := S) (role_step domain refdoc target node contnode results role).
Proof.
  unfold role_step.
  apply stateless_bind; [apply stateless_of_signal |].
  intros [r |]; [| apply stateless_ret].
  destruct (first_child_element r); apply stateless_ret.
Qed.

Lemma emit_stateless {S} hs node contnode :
  stateless (S := S) (emit hs node contnode).
Proof.
  induction hs as [| h rest IH]; simpl; [apply stateless_ret |].
  apply stateless_bind; [apply stateless_of_signal | intros r].
  apply stateless_bind; [apply IH | intros rs; apply stateless_ret].
Qed.

Lemma emit_firstresult_stateless {S} self node contnode :
  stateless (S := S) (emit_firstresult self node contnode).
Proof.
  unfold emit_firstresult.
  apply stateless_bind; [apply emit_stateless | intros ?; apply stateless_ret].
Qed.

(** ** Strings and paths *)










Lemma endswith_append_dotdot (a : string) :
  endswith sep (String.append a "..") = false.
Proof.
  induction a as [| x a IH]; [reflexivity |].
  simpl. destruct (String.append a "..") eqn:E; [| exact IH].
  destruct a; discriminate.
Qed.

Lemma append_dotdot_nonempty (a : string) :
  eqb (String.append a "..") "" = false.
Proof. destruct a; reflexivity. Qed.

Lemma append_assoc (a b c : string) :
  String.append (String.append a b) c = String.append a (String.append b c).
Proof.
  induction a as [| x a IH]; [reflexivity |].
  change (String x (String.append (String.append a b) c)
          = String x (String.append a (String.append b c))).
  f_equal. exact IH.
Qed.

(** [os.path.join(base, "..", rel)] for a relative [rel]: the parent of
    [base], then [rel]. *)
Lemma path_join_parent_relative (base rel : string) :
  startswith "/" rel = false ->
  path_join base [".."; rel]
  = String.append (path_join base [".."]) (String.append "/" rel).
Proof.
  intros Hrel. simpl. rewrite Hrel.
  destruct (eqb base "" || endswith sep base).
  - rewrite append_dotdot_nonempty, endswith_append_dotdot. reflexivity.
  - replace (String.append base (String.append "/" ".."))
      with (String.append (String.append base "/") "..")
      by apply append_assoc.
    rewrite append_dotdot_nonempty, endswith_append_dotdot. reflexivity.
Qed.

Lemma path_join_parent (base : string) :
  base <> "" -> endswith sep base = false ->
  path_join base [".."] = String.append base "/..".
Proof.
  intros Hne Hend. simpl. apply String.eqb_neq in Hne.
  unfold eqb. rewrite Hne, Hend. reflexivity.
Qed.

(** ** The label lookup *)

(** The registry entry [ref_lookup] reads: the anonymous-label registry
    for an explicit label, the named-label registry otherwise, at the key it
    is given. *)
Lemma ref_lookup_registry self node key :
  (ref_lookup self node key).1 =
    if refexplicit node then
      match anonlabels (std self) !! key with
      | Some v => v
      | None => ("", "")
      end
    else
      match labels (std self) !! key with
      | Some (docname, labelid, _) => (docname, labelid)
      | None => ("", "")
      end.
Proof.
  unfold ref_lookup. destruct (refexplicit node).
  - destruct (anonlabels (std self) !! key) as [[d l] |]; reflexivity.
  - destruct (labels (std self) !! key) as [[[d l] t] |]; reflexivity.
Qed.

(** ** What [normpath] gives *)















(** ** C9: the anchor target parser *)



(** ** [make_refnode] *)

Lemma make_refnode_children {S} self fromdoc todoc targetid child (s s' : S) r :
  make_refnode self fromdoc todoc targetid child s = (Ok r, s') ->
  children_of r = [Elem child] /\ tag_of r = "reference".
Proof.
  unfold make_refnode, bind.
  destruct (_ && _).
  - simpl. intros [= <- <-]. auto.
  - destruct (negb _);
      (destruct (get_relative_uri self fromdoc todoc) as [uri |]; simpl;
       [intros [= <- <-]; auto | discriminate]).
Qed.

(** ** C8: document resolution *)

(** C8.  Document resolution joins the target to the referring document's
    path ([docname_join]; for a relative target and an ordinary document
    name this is [/refdoc/../target] normalised, without the leading
    slash).  A joined name that is a known document is the destination.
    Otherwise, when its extension is a configured source suffix, the
    extension is stripped once and the stripped name, if known, is the
    destination.  In every other case (also when the stripped name is
    unknown, whatever a second stripping would give) there is no
    candidate. *)
Theorem C8_document_resolution (self : Resolver) (node : pending_xref)
  (fromdoc : string) :
  let refdoc := refdoc_or node fromdoc in
  let joined := docname_join refdoc (reftarget node) in
  let root := (splitext joined).1 in
  let ext := (splitext joined).2 in
  (startswith "/" (reftarget node) = false ->
   refdoc <> "" -> endswith sep refdoc = false ->
   joined = slice_from
              (normpath (String.append (String.append "/" refdoc)
                           (String.append "/../" (reftarget node)))) 1) /\
  (joined ∈ all_docs self ->
   forall (S : Type) (s : S),
     _resolve_doc_nested self node fromdoc s
     = (let* r := make_refnode self fromdoc joined ""
                    (doc_innernode self node joined) in
        ret (Some r)) s) /\
  (joined ∉ all_docs self -> ext ∈ source_suffix (config self) ->
   root ∈ all_docs self ->
   forall (S : Type) (s : S),
     _resolve_doc_nested self node fromdoc s
     = (let* r := make_refnode self fromdoc root ""
                    (doc_innernode self node root) in
        ret (Some r)) s) /\
  (joined ∉ all_docs self -> ext ∉ source_suffix (config self) ->
   forall (S : Type) (s : S),
     _resolve_doc_nested self node fromdoc s = (Ok None, s)) /\
  (joined ∉ all_docs self -> root ∉ all_docs self ->
   forall (S : Type) (s : S),
     _resolve_doc_nested self node fromdoc s = (Ok None, s)).
Proof.
  cbv zeta. repeat split.
  - intros Hrel Hne Hend. unfold docname_join.
    rewrite path_join_parent_relative by exact Hrel.
    rewrite path_join_parent.
    + rewrite append_assoc. reflexivity.
    + destruct (refdoc_or node fromdoc); discriminate.
    + destruct (refdoc_or node fromdoc) as [| c r]; [congruence |].
      exact Hend.
  - intros Hin S s. unfold _resolve_doc_nested, doc_candidate.
    rewrite (bool_decide_eq_true_2 _ Hin). cbn [negb andb].
    rewrite (bool_decide_eq_true_2 _ Hin). reflexivity.
  - intros Hout Hext Hroot S s. unfold _resolve_doc_nested, doc_candidate.
    rewrite (bool_decide_eq_false_2 _ Hout), (bool_decide_eq_true_2 _ Hext).
    cbn [negb andb]. rewrite (bool_decide_eq_true_2 _ Hroot). reflexivity.
  - intros Hout Hext S s. unfold _resolve_doc_nested, doc_candidate.
    rewrite (bool_decide_eq_false_2 _ Hout), (bool_decide_eq_false_2 _ Hext).
    cbn [negb andb]. rewrite (bool_decide_eq_false_2 _ Hout). reflexivity.
  - intros Hout Hroot S s. unfold _resolve_doc_nested, doc_candidate.
    rewrite (bool_decide_eq_false_2 _ Hout). cbn [negb andb].
    destruct (bool_decide (_ ∈ source_suffix (config self))).
    + rewrite (bool_decide_eq_false_2 _ Hroot). reflexivity.
    + rewrite (bool_decide_eq_false_2 _ Hout). reflexivity.
Qed.

(** C8 at the sample project: [./intro.md] seen from [guide/start] is not a
    document, [.md] is a source suffix, and [guide/intro] is a document. *)
Lemma C8_document_resolution_witness :
  _resolve_doc_nested Sample.self (Sample.link "./intro.md" []) "guide/start"
    empty_logger
  = (let* r := make_refnode Sample.self "guide/start" "guide/intro" ""
                 (doc_innernode Sample.self (Sample.link "./intro.md" [])
                    "guide/intro") in
     ret (Some r)) empty_logger.
Proof.
  destruct (C8_document_resolution Sample.self (Sample.link "./intro.md" [])
              "guide/start") as (_ & _ & H & _ & _).
  apply (H ltac:(vm_compute; set_solver)
           ltac:(vm_compute; set_solver)
           ltac:(vm_compute; set_solver)).
Defined.

(** ** C4: explicit labels *)

Lemma extend_inline_children raw attrs items :
  children_of (extend (inline raw "" attrs) items) = items.
Proof. reflexivity. Qed.

Lemma make_refnode_label {S} self fromdoc todoc targetid child (s s' : S) r :
  make_refnode self fromdoc todoc targetid child s = (Ok r, s') ->
  label_of r = Some child.
Proof.
  intros H. apply make_refnode_children in H as [H _].
  unfold label_of. rewrite H. reflexivity.
Qed.

(** [finish] touches the classes of the label and nothing else. *)
Lemma finish_label tag r l :
  label_of r = Some l ->
  exists l', label_of (finish (tag, r)) = Some l' /\
             children_of l' = children_of l /\ tag_of l' = tag_of l.
Proof.
  unfold label_of, finish, first_child_element.
  destruct r as [t raw a c]. simpl.
  destruct c as [| [txt | e] [| ? ?]]; try discriminate.
  intros [= ->]. simpl.
  destruct l as [lt lraw la lc]. simpl. eexists. split; [reflexivity |]. auto.
Qed.

(** C4.  For a placeholder with explicit nested content, the reference that
    named-label resolution (with any lookup key, so also the anchor key) or
    document resolution builds has one child, its label, and the children of
    that label are the children of the placeholder's content, node for node;
    this holds for every registry and every title, and the class tagging of
    the selected candidate keeps it. *)
Theorem C4_explicit_label_preserved (self : Resolver) (node : pending_xref)
  (fromdoc : string) (Hexplicit : refexplicit node = true) :
  (forall (S : Type) (s s' : S) target r,
     _resolve_ref_nested self node fromdoc target s = (Ok (Some r), s') ->
     exists l, label_of r = Some l /\
               children_of l = children_of (content node) /\
               (forall tag, exists l',
                   label_of (finish (tag, r)) = Some l' /\
                   children_of l' = children_of (content node)))
  /\
  (forall (S : Type) (s s' : S) r,
     _resolve_doc_nested self node fromdoc s = (Ok (Some r), s') ->
     exists l, label_of r = Some l /\
               children_of l = children_of (content node) /\
               (forall tag, exists l',
                   label_of (finish (tag, r)) = Some l' /\
                   children_of l' = children_of (content node))).
Proof.
  split.
  - intros S s s' target r H.
    unfold _resolve_ref_nested, ref_lookup in H. rewrite Hexplicit in H.
    destruct (anonlabels (std self) !! ref_key node target) as [[d lid] |];
      cbn beta iota in H.
    + destruct (String.eqb d ""); [discriminate |].
      unfold bind in H.
      destruct (make_refnode _ _ _ _ _ s) as [[r0 | e] s0] eqn:Hm;
        [| discriminate].
      injection H as <- <-.
      apply make_refnode_label in Hm.
      eexists. split; [exact Hm |]. split; [reflexivity |].
      intros tag. destruct (finish_label tag _ _ Hm) as (l' & Hl' & Hc & _).
      exists l'. split; [exact Hl' | exact Hc].
    + discriminate.
  - intros S s s' r H.
    unfold _resolve_doc_nested in H.
    destruct (negb _); [discriminate |].
    unfold bind in H.
    destruct (make_refnode _ _ _ _ _ s) as [[r0 | e] s0] eqn:Hm;
      [| discriminate].
    injection H as <- <-.
    apply make_refnode_label in Hm.
    unfold doc_innernode in Hm. rewrite Hexplicit in Hm.
    eexists. split; [exact Hm |]. split; [reflexivity |].
    intros tag. destruct (finish_label tag _ _ Hm) as (l' & Hl' & Hc & _).
    exists l'. split; [exact Hl' | exact Hc].
Qed.

(** C4 at the sample project: [[**bold** text](setup)]. *)
Lemma C4_explicit_label_preserved_witness :
  exists l,
    label_of
      (the_node
         (_resolve_ref_nested Sample.self
            (Sample.link "setup"
               [Elem (mkElement "strong" "" ∅ [Text "bold"]); Text " text"])
            "guide/start" None empty_logger)) = Some l /\
    children_of l
    = [Elem (mkElement "strong" "" ∅ [Text "bold"]); Text " text"].
Proof.
  destruct (C4_explicit_label_preserved Sample.self
              (Sample.link "setup"
                 [Elem (mkElement "strong" "" ∅ [Text "bold"]); Text " text"])
              "guide/start" eq_refl) as [H _].
  destruct (H logger empty_logger empty_logger None
              (the_node
                 (_resolve_ref_nested Sample.self
                    (Sample.link "setup"
                       [Elem (mkElement "strong" "" ∅ [Text "bold"]);
                        Text " text"])
                    "guide/start" None empty_logger))
              ltac:(vm_compute; reflexivity))
    as (l & Hl & Hc & _).
  exists l. split; [exact Hl | exact Hc].
Defined.

(** ** C5: which lookups fold the case *)

(** C5, as the code has it.  Named-label resolution always looks the
    registry up at the lower-cased target, whatever kind the target denotes:
    a miss at that key gives no candidate and a hit gives the reference to
    the entry found there.  The standard-domain object search looks the
    object index up at [(kind, target)], lower-casing the target for the
    kind [term] and for no other kind. *)
Theorem C5_lookup_keys (self : Resolver) (node : pending_xref)
  (refdoc : string) :
  ref_key node None = lower (reftarget node) /\
  ((if refexplicit node
    then anonlabels (std self) !! lower (reftarget node) = None
    else labels (std self) !! lower (reftarget node) = None) ->
   forall (S : Type) (s : S),
     _resolve_ref_nested self node refdoc None s = (Ok None, s)) /\
  (forall d l t,
     refexplicit node = false ->
     labels (std self) !! lower (reftarget node) = Some (d, l, t) ->
     d <> "" ->
     forall (S : Type) (s : S),
       _resolve_ref_nested self node refdoc None s
       = (let* r := make_refnode self refdoc d l (inline t t ∅) in
          ret (Some r)) s) /\
  (forall objtype target contnode results,
     let key :=
       (objtype, if String.eqb objtype "term" then lower target else target) in
     (objtype <> "term" -> key = (objtype, target)) /\
     (objects (std self) !! key = None ->
      forall (S : Type) (s : S),
        std_object_step self refdoc target contnode results objtype s
        = (Ok results, s)) /\
     (forall d l,
        objects (std self) !! key = Some (d, l) ->
        forall (S : Type) (s : S),
          std_object_step self refdoc target contnode results objtype s
          = (let* ref_node := make_refnode self refdoc d l contnode in
             ret (results ++
                    [(String.append "std:"
                        (role_for_objtype (std self) objtype), ref_node)])) s)).
Proof.
  split; [reflexivity |]. split; [| split].
  - intros Hmiss S s. unfold _resolve_ref_nested, ref_lookup.
    change (ref_key node None) with (lower (reftarget node)).
    destruct (refexplicit node); rewrite Hmiss; reflexivity.
  - intros d l t Himplicit Hhit Hd S s.
    unfold _resolve_ref_nested, ref_lookup.
    change (ref_key node None) with (lower (reftarget node)).
    rewrite Himplicit, Hhit. cbn beta iota.
    apply String.eqb_neq in Hd. rewrite Hd. reflexivity.
  - intros objtype target contnode results key. subst key.
    split; [| split].
    + intros Hne. apply String.eqb_neq in Hne. rewrite Hne. reflexivity.
    + intros Hmiss S s. unfold std_object_step.
      destruct (String.eqb objtype "term"); rewrite Hmiss; reflexivity.
    + intros d l Hhit S s. unfold std_object_step.
      destruct (String.eqb objtype "term"); rewrite Hhit; reflexivity.
Qed.

(** C5 at the sample project: [Setup] is found under the label [setup]. *)
Lemma C5_lookup_keys_witness :
  _resolve_ref_nested Sample.self (Sample.link "Setup" []) "guide/start" None
    empty_logger
  = (let* r := make_refnode Sample.self "guide/start" "guide/intro" "setup"
                 (inline "Setup section" "Setup section" ∅) in
     ret (Some r)) empty_logger.
Proof.
  destruct (C5_lookup_keys Sample.self (Sample.link "Setup" []) "guide/start")
    as (_ & _ & H & _).
  apply (H "guide/intro" "setup" "Setup section" eq_refl
           ltac:(vm_compute; reflexivity) ltac:(discriminate)).
Defined.

(** C5 as stated does not hold: the target [Setup] denotes no term (the
    object index holds no term of that name, in either case, and the label
    registry has no entry [Setup]), yet named-label resolution finds the
    entry [setup]: its key was lower-cased. *)
Lemma C5_counterexample :
  objects (std Sample.self) !! ("term", "Setup") = None /\
  objects (std Sample.self) !! ("term", "setup") = None /\
  labels (std Sample.self) !! "Setup" = None /\
  ref_key (Sample.link "Setup" []) None <> reftarget (Sample.link "Setup" []) /\
  exists r,
    _resolve_ref_nested Sample.self (Sample.link "Setup" []) "guide/start"
      None empty_logger = (Ok (Some r), empty_logger) /\
    get_str "refuri" "" r = "guide/intro.html#setup".
Proof.
  split; [vm_compute; reflexivity |].
  split; [vm_compute; reflexivity |].
  split; [vm_compute; reflexivity |].
  split; [vm_compute; discriminate |].
  eexists. split; vm_compute; reflexivity.
Qed.

(** ** Loops that append *)

Lemma fold_loop_appending {S A B} (body : list B -> A -> M S (list B)) l :
  appending body ->
  forall acc s,
    fold_loop body l acc s
    = (let* extra := fold_loop body l [] in ret (acc ++ extra)) s.
Proof.
  intros Happ. induction l as [| x l IH]; intros acc s.
  - simpl. unfold bind, ret. now rewrite List.app_nil_r.
  - simpl. unfold bind. rewrite (Happ acc x s). unfold bind.
    destruct (body [] x s) as [[h | e] s1]; [| reflexivity].
    unfold ret. rewrite (IH (acc ++ h) s1), (IH h s1).
    unfold bind, ret.
    destruct (fold_loop body l [] s1) as [[extra | e] s2]; [| reflexivity].
    now rewrite List.app_assoc.
Qed.

Lemma fold_loop_hits {S A B} (body : list B -> A -> M S (list B)) l :
  appending body ->
  forall acc s res s',
    fold_loop body l acc s = (Ok res, s') ->
    exists hits, loop_hits body l s hits s' /\ res = acc ++ List.concat hits.
Proof.
  intros Happ. induction l as [| x l IH]; intros acc s res s' H.
  - simpl in H. injection H as <- <-. exists []. split; [constructor |].
    simpl. now rewrite List.app_nil_r.
  - simpl in H. unfold bind in H. rewrite (Happ acc x s) in H.
    unfold bind in H.
    destruct (body [] x s) as [[h | e] s1] eqn:Hb; [| discriminate].
    unfold ret in H.
    destruct (IH _ _ _ _ H) as (hits & Hhits & ->).
    exists (h :: hits). split; [econstructor; eassumption |].
    simpl. now rewrite List.app_assoc.
Qed.

Lemma loop_hits_stateless {S A B} (body : list B -> A -> M S (list B)) l s hits s' :
  (forall acc x, stateless (body acc x)) ->
  loop_hits body l s hits s' -> s' = s.
Proof.
  intros Hst H. induction H as [| x l s h s1 hs s2 Hb _ IH]; [reflexivity |].
  apply (stateless_state _ _ _ _ (Hst [] x)) in Hb. congruence.
Qed.

Lemma std_object_step_appending {S} self refdoc target contnode :
  appending (S := S) (std_object_step self refdoc target contnode).
Proof.
  intros acc objtype s. unfold std_object_step.
  destruct (objects (std self) !! _) as [[d l] |]; [| simpl].
  - unfold bind. destruct (make_refnode _ _ _ _ _ s) as [[r | e] s1];
      reflexivity.
  - unfold bind, ret. now rewrite List.app_nil_r.
Qed.

Lemma role_step_appending {S} domain refdoc target node contnode :
  appending (S := S) (role_step domain refdoc target node contnode).
Proof.
  intros acc role s. unfold role_step, bind.
  destruct (of_signal _ s) as [[[r |] | e] s1]; simpl.
  - destruct (first_child_element r); unfold ret; simpl;
      [reflexivity | now rewrite List.app_nil_r].
  - unfold ret. now rewrite List.app_nil_r.
  - reflexivity.
Qed.

Lemma domain_step_appending ref_domains refdoc target node contnode :
  appending (domain_step ref_domains refdoc target node contnode).
Proof.
  intros acc d s. unfold domain_step.
  destruct (String.eqb (name d) "std").
  { unfold bind, ret. now rewrite List.app_nil_r. }
  destruct (negb _).
  { unfold bind, ret. now rewrite List.app_nil_r. }
  unfold try_except, call_resolve_any_xref, bind.
  destruct (resolve_any_xref d refdoc target node contnode) as [found | []];
    try reflexivity.
  destruct (negb (startswith "sphinx." (module_name d))).
  - destruct (warning _ _ _ _ _ s) as [[[] | e] s1]; [| reflexivity].
    rewrite (fold_loop_appending _ _ (role_step_appending _ _ _ _ _) acc s1).
    unfold bind.
    destruct (fold_loop _ _ [] s1) as [[extra | e] s2]; reflexivity.
  - unfold ret.
    rewrite (fold_loop_appending _ _ (role_step_appending _ _ _ _ _) acc s).
    unfold bind.
    destruct (fold_loop _ _ [] s) as [[extra | e] s2]; reflexivity.
Qed.

(** ** The logger during candidate collection *)

Lemma warning_once_step d lg r lg' :
  warning (noncompliant_msg d) "myst" "domains" None true lg = (r, lg') ->
  r = Ok tt /\ (lg' = lg \/ domain_log_step lg lg').
Proof.
  unfold warning. destruct (bool_decide _) eqn:Hseen.
  - intros [= <- <-]. auto.
  - intros [= <- <-]. split; [reflexivity |]. right.
    apply bool_decide_eq_false_1 in Hseen.
    apply (domain_step_warn d lg Hseen).
Qed.

Lemma fold_role_step_stateless domain refdoc target node contnode l acc :
  stateless (S := logger)
    (fold_loop (role_step domain refdoc target node contnode) l acc).
Proof. apply stateless_fold_loop. intros; apply role_step_stateless. Qed.

Lemma of_signal_not_unsupported {S A} (x : signal A) (s s' : S) :
  of_signal x s <> (Raise NotImplementedError, s').
Proof. destruct x; discriminate. Qed.

Lemma make_refnode_not_unsupported {S} self a b c d (s s' : S) :
  make_refnode self a b c d s <> (Raise NotImplementedError, s').
Proof.
  unfold make_refnode, bind.
  destruct (_ && _); [discriminate |].
  destruct (negb _); destruct (get_relative_uri self a b); discriminate.
Qed.

Lemma fold_role_step_not_unsupported {S} domain refdoc target node contnode l :
  forall acc (s s' : S),
    fold_loop (role_step domain refdoc target node contnode) l acc s
    <> (Raise NotImplementedError, s').
Proof.
  induction l as [| role l IH]; intros acc s s'; simpl; [discriminate |].
  unfold bind at 1. unfold role_step at 1, bind.
  destruct (resolve_xref domain refdoc role target node contnode) as [[r |] |];
    simpl; try discriminate.
  - destruct (first_child_element r); apply IH.
  - apply IH.
Qed.

(** One domain changes the logger by at most the first warning about it,
    and never lets [NotImplementedError] through. *)
Lemma domain_step_log ref_domains refdoc target node contnode acc d lg r lg' :
  domain_step ref_domains refdoc target node contnode acc d lg = (r, lg') ->
  (lg' = lg \/ domain_log_step lg lg') /\ r <> Raise NotImplementedError.
Proof.
  unfold domain_step.
  destruct (String.eqb (name d) "std"); [intros [= <- <-]; split; [auto | discriminate] |].
  destruct (negb (domain_allowed _ _));
    [intros [= <- <-]; split; [auto | discriminate] |].
  unfold try_except, bind at 1, call_resolve_any_xref.
  destruct (resolve_any_xref d refdoc target node contnode) as [found | []].
  - intros [= <- <-]. split; [auto | discriminate].
  - intros [= <- <-]. split; [auto | discriminate].
  - unfold bind at 1.
    destruct (negb (startswith "sphinx." (module_name d))).
    + destruct (warning _ _ _ _ _ lg) as [w lg1] eqn:Hw.
      apply warning_once_step in Hw as [-> Hstep].
      intros H. split.
      * apply (stateless_state _ _ _ _ (fold_role_step_stateless _ _ _ _ _ _ _))
          in H. now subst lg'.
      * intros ->. now apply fold_role_step_not_unsupported in H.
    + unfold ret. intros H. split.
      * apply (stateless_state _ _ _ _ (fold_role_step_stateless _ _ _ _ _ _ _))
          in H. auto.
      * intros ->. now apply fold_role_step_not_unsupported in H.
Qed.


Lemma resolve_ref_nested_not_unsupported {S} self node fromdoc target (s s' : S) :
  _resolve_ref_nested self node fromdoc target s
  <> (Raise NotImplementedError, s').
Proof.
  unfold _resolve_ref_nested.
  destruct (ref_lookup _ _ _) as [[d l] inner].
  destruct (String.eqb d ""); [discriminate |].
  unfold bind.
  destruct (make_refnode _ _ _ _ _ s) as [[r | e] s1] eqn:Hm; [discriminate |].
  destruct e; [discriminate |].
  now apply make_refnode_not_unsupported in Hm.
Qed.

Lemma resolve_anchor_not_unsupported {S} self node fromdoc (s s' : S) :
  _resolve_anchor self node fromdoc s <> (Raise NotImplementedError, s').
Proof.
  unfold _resolve_anchor.
  destruct (myst_heading_anchors _); [| discriminate].
  destruct (negb _); [discriminate |].
  destruct (rsplit1 _ _) as [[p a] |]; apply resolve_ref_nested_not_unsupported.
Qed.

Lemma resolve_doc_nested_not_unsupported {S} self node fromdoc (s s' : S) :
  _resolve_doc_nested self node fromdoc s <> (Raise NotImplementedError, s').
Proof.
  unfold _resolve_doc_nested.
  destruct (negb _); [discriminate |].
  unfold bind.
  destruct (make_refnode _ _ _ _ _ s) as [[r | e] s1] eqn:Hm; [discriminate |].
  destruct e; [discriminate |].
  now apply make_refnode_not_unsupported in Hm.
Qed.

Lemma fold_std_object_step_not_unsupported {S} self refdoc target contnode l :
  forall acc (s s' : S),
    fold_loop (std_object_step self refdoc target contnode) l acc s
    <> (Raise NotImplementedError, s').
Proof.
  induction l as [| objtype l IH]; intros acc s s'; simpl; [discriminate |].
  unfold bind at 1. unfold std_object_step at 1.
  destruct (objects (std self) !! _) as [[d lid] |]; [| apply IH].
  unfold bind.
  destruct (make_refnode _ _ _ _ _ s) as [[r | e] s1] eqn:Hm; [apply IH |].
  destruct e; [discriminate |].
  now apply make_refnode_not_unsupported in Hm.
Qed.

Lemma fold_domain_step_log ref_domains refdoc target node contnode l :
  forall acc lg r lg',
    fold_loop (domain_step ref_domains refdoc target node contnode) l acc lg
    = (r, lg') ->
    rtc domain_log_step lg lg' /\ r <> Raise NotImplementedError.
Proof.
  induction l as [| d l IH]; intros acc lg r lg'; simpl.
  - intros [= <- <-]. split; [constructor | discriminate].
  - unfold bind.
    destruct (domain_step _ _ _ _ _ acc d lg) as [[acc' | e] lg1] eqn:Hd;
      apply domain_step_log in Hd as [Hstep Hne].
    + intros H. apply IH in H as [Hrtc Hr]. split; [| exact Hr].
      destruct Hstep as [-> | Hstep]; [exact Hrtc |].
      eapply rtc_l; eassumption.
    + intros [= <- <-]. split; [| exact Hne].
      destruct Hstep as [-> | Hstep]; [constructor | now apply rtc_once].
Qed.

Lemma loop_hits_domain_log ref_domains refdoc target node contnode l lg hits lg' :
  loop_hits (domain_step ref_domains refdoc target node contnode) l lg hits lg' ->
  rtc domain_log_step lg lg'.
Proof.
  induction 1 as [| d l s h s1 hs s2 Hb _ IH]; [constructor |].
  apply domain_step_log in Hb as [[-> | Hstep] _]; [exact IH |].
  eapply rtc_l; eassumption.
Qed.

Lemma anchor_label_doc_stateless {S} self refdoc node :
  stateless (S := S) (anchor_label_doc self refdoc node).
Proof.
  unfold anchor_label_doc.
  apply stateless_bind; [apply resolve_anchor_stateless |].
  intros [a |]; [apply stateless_ret |].
  apply stateless_bind; [apply resolve_ref_nested_stateless | intros rl].
  apply stateless_bind; [apply resolve_doc_nested_stateless | intros rd].
  apply stateless_ret.
Qed.

Lemma std_objects_stateless {S} self refdoc target contnode results :
  stateless (S := S) (std_objects self refdoc target contnode results).
Proof.
  unfold std_objects. destruct (domain_allowed _ _); [| apply stateless_ret].
  apply stateless_fold_loop. intros. apply std_object_step_stateless.
Qed.

Lemma std_objects_searched_kinds {S} self refdoc target contnode results (s : S) :
  std_objects self refdoc target contnode results s
  = fold_loop (std_object_step self refdoc target contnode)
      (searched_kinds self) results s.
Proof.
  unfold std_objects, searched_kinds.
  destruct (domain_allowed _ _); reflexivity.
Qed.

Lemma anchor_label_doc_not_unsupported {S} self refdoc node (s s' : S) :
  anchor_label_doc self refdoc node s <> (Raise NotImplementedError, s').
Proof.
  unfold anchor_label_doc, bind.
  destruct (_resolve_anchor self node refdoc s) as [[[a |] | e] s1] eqn:Ha.
  - discriminate.
  - destruct (_resolve_ref_nested self node refdoc None s1)
      as [[rl | e] s2] eqn:Hl.
    + destruct (_resolve_doc_nested self node refdoc s2)
        as [[rd | e] s3] eqn:Hd; [discriminate |].
      intros [= -> ->]. now apply resolve_doc_nested_not_unsupported in Hd.
    + intros [= -> ->]. now apply resolve_ref_nested_not_unsupported in Hl.
  - intros [= -> ->]. now apply resolve_anchor_not_unsupported in Ha.
Qed.

Lemma std_objects_not_unsupported {S} self refdoc target contnode results (s s' : S) :
  std_objects self refdoc target contnode results s
  <> (Raise NotImplementedError, s').
Proof.
  rewrite std_objects_searched_kinds.
  apply fold_std_object_step_not_unsupported.
Qed.

(** The logger after [collect], whatever its outcome: first warnings about
    noncompliant domains and nothing else; and [collect] raises nothing but
    [NoUri]. *)
Lemma collect_log self refdoc node contnode lg r lg' :
  collect self refdoc node contnode lg = (r, lg') ->
  rtc domain_log_step lg lg' /\ r <> Raise NotImplementedError.
Proof.
  unfold collect, bind.
  destruct (anchor_label_doc self refdoc node lg) as [[t1 | e] lg1] eqn:H1.
  - apply (stateless_state _ _ _ _ (anchor_label_doc_stateless _ _ _)) in H1.
    subst lg1.
    destruct (std_objects self refdoc (reftarget node) contnode t1 lg)
      as [[t2 | e] lg2] eqn:H2.
    + apply (stateless_state _ _ _ _ (std_objects_stateless _ _ _ _ _)) in H2.
      subst lg2. apply fold_domain_step_log.
    + intros [= <- <-].
      pose proof (stateless_state _ _ _ _ (std_objects_stateless _ _ _ _ _) H2).
      subst lg2. split; [constructor |]. intros [= ->].
      now apply std_objects_not_unsupported in H2.
  - intros [= <- <-].
    pose proof (stateless_state _ _ _ _ (anchor_label_doc_stateless _ _ _) H1).
    subst lg1. split; [constructor |]. intros [= ->].
    now apply anchor_label_doc_not_unsupported in H1.
Qed.

(** ** The order of the candidates *)

Lemma anchor_label_doc_first_tier self refdoc node lg tier lg1 :
  anchor_label_doc self refdoc node lg = (Ok tier, lg1) ->
  first_tier self refdoc node lg tier.
Proof.
  unfold anchor_label_doc, first_tier, bind.
  destruct (_resolve_anchor self node refdoc lg) as [[[a |] | e] s1] eqn:Ha;
    simpl; [intros [= <- <-]; reflexivity | | discriminate].
  apply (stateless_state _ _ _ _ (resolve_anchor_stateless _ _ _)) in Ha.
  subst s1.
  destruct (_resolve_ref_nested self node refdoc None lg) as [[rl | e] s2] eqn:Hl;
    [| discriminate].
  apply (stateless_state _ _ _ _ (resolve_ref_nested_stateless _ _ _ _)) in Hl.
  subst s2.
  destruct (_resolve_doc_nested self node refdoc lg) as [[rd | e] s3] eqn:Hd;
    [| discriminate].
  intros [= <- <-]. exists rl, rd. simpl.
  repeat split. destruct rl, rd; reflexivity.
Qed.

(** The candidates come tier by tier: anchor (or label, then document),
    then the standard-domain objects kind by kind, then the other domains
    one after the other. *)
Lemma collect_order self refdoc node contnode lg results lg' :
  collect self refdoc node contnode lg = (Ok results, lg') ->
  exists tier std_hits dom_hits,
    results = tier ++ List.concat std_hits ++ List.concat dom_hits /\
    first_tier self refdoc node lg tier /\
    loop_hits (std_object_step self refdoc (reftarget node) contnode)
      (searched_kinds self) lg std_hits lg /\
    loop_hits (domain_step (myst_ref_domains (config self)) refdoc
                 (reftarget node) node contnode)
      (domains self) lg dom_hits lg'.
Proof.
  unfold collect, bind.
  destruct (anchor_label_doc self refdoc node lg) as [[t1 | e] lg1] eqn:H1;
    [| discriminate].
  pose proof (stateless_state _ _ _ _ (anchor_label_doc_stateless _ _ _) H1).
  subst lg1. apply anchor_label_doc_first_tier in H1.
  destruct (std_objects self refdoc (reftarget node) contnode t1 lg)
    as [[t2 | e] lg2] eqn:H2; [| discriminate].
  pose proof (stateless_state _ _ _ _ (std_objects_stateless _ _ _ _ _) H2).
  subst lg2. rewrite std_objects_searched_kinds in H2.
  apply (fold_loop_hits _ _ (std_object_step_appending _ _ _ _)) in H2
    as (std_hits & Hstd & ->).
  unfold other_domains. intros H3.
  apply (fold_loop_hits _ _ (domain_step_appending _ _ _ _ _)) in H3
    as (dom_hits & Hdom & ->).
  exists t1, std_hits, dom_hits.
  rewrite List.app_assoc. auto.
Qed.

(** ** C2: ambiguity *)

Lemma append_nil_r (a : string) : String.append a "" = a.
Proof.
  induction a as [| x a IH]; [reflexivity |].
  change (String x (String.append a "") = String x a). now rewrite IH.
Qed.

Lemma concat_contains (sep : string) (l : list string) (x : string) :
  In x l ->
  exists pre post,
    String.concat sep l = String.append pre (String.append x post).
Proof.
  induction l as [| y l IH]; [intros [] |].
  intros [-> | Hin].
  - exists "". destruct l as [| z l]; simpl.
    + exists "". now rewrite append_nil_r.
    + eexists. reflexivity.
  - destruct (IH Hin) as (pre & post & E).
    destruct l as [| z l]; [destruct Hin |].
    exists (String.append y (String.append sep pre)), post.
    change (String.concat sep (y :: z :: l))
      with (String.append y (String.append sep (String.concat sep (z :: l)))).
    rewrite E, !append_assoc. reflexivity.
Qed.

(** The ambiguity message names every candidate. *)
Lemma ambiguous_msg_names target results c :
  In c results ->
  exists pre post,
    ambiguous_msg target results
    = String.append pre (String.append (stringify c) post).
Proof.
  intros Hin. unfold ambiguous_msg, join.
  destruct (concat_contains " or " (List.map stringify results) (stringify c))
    as (pre & post & E); [now apply List.in_map |].
  rewrite E.
  exists (String.concat ""
            ["more than one target found for 'myst' cross-reference ";
             target; ": could be "; pre]),
         (String.append post " [myst.ref]").
  cbn [String.concat]. rewrite !append_assoc. reflexivity.
Qed.

Lemma select_many node first second rest lg :
  select node (first :: second :: rest) lg
  = (Ok (Some (finish first)),
     log_add (ambiguity_record node (first :: second :: rest)) lg).
Proof. reflexivity. Qed.

Lemma select_one node first lg :
  select node [first] lg = (Ok (Some (finish first)), lg).
Proof. reflexivity. Qed.

Lemma domain_log_steps_records lg lg' :
  rtc domain_log_step lg lg' ->
  exists added,
    records lg' = records lg ++ added /\
    Forall (fun r => is_domains_record r = true) added.
Proof.
  induction 1 as [lg | lg lg1 lg2 Hstep _ IH].
  - exists []. now rewrite List.app_nil_r.
  - destruct IH as (added & E & Hall). destruct Hstep as [d lg _].
    exists (domain_record d :: added). simpl in E. rewrite E.
    rewrite <- List.app_assoc. split; [reflexivity |].
    constructor; [reflexivity | exact Hall].
Qed.

Lemma domains_record_not_ambiguity r :
  is_domains_record r = true -> is_ambiguity_record r = false.
Proof.
  unfold is_domains_record, is_ambiguity_record.
  intros H. apply andb_true_iff in H as [_ H].
  apply String.eqb_eq in H. rewrite H. apply andb_false_r.
Qed.

Lemma filter_none {A} (f : A -> bool) (l : list A) :
  Forall (fun x => f x = false) l -> List.filter f l = [].
Proof.
  induction 1 as [| x l Hx _ IH]; [reflexivity |].
  simpl. now rewrite Hx.
Qed.

(** [stringify] spelled out: the tag between colons, then the display text
    between backquotes, the display text being the [reftitle] of the node
    when it has one and the text of the node otherwise. *)
Lemma stringify_spelled (c : candidate) :
  stringify c
  = String.concat ""
      [":"; fst c; ":`";
       match attributes_of (snd c) !! "reftitle" with
       | Some (AStr title) => title
       | _ => astext_element (snd c)
       end; "`"].
Proof. destruct c as [nm nd]. reflexivity. Qed.

(** C2.  When two or more candidates are collected, the resolution emits
    one ambiguity warning and no other (what [collect] logged before are
    warnings about domains).  The warning is of type [myst.ref], located at
    the placeholder, and its message reads [more than one target found for
    'myst' cross-reference TARGET: could be C1 or C2 ... [myst.ref]], where
    every candidate is written [:domain:role:`text`], the text being the
    [reftitle] of its node when it has one and the text of the node
    otherwise.  The result is the first candidate (with its classes
    tagged), the candidates standing in the order anchor (or label, then
    document), standard-domain objects kind by kind, other domains one after
    the other; and what follows the first candidate has no part in the
    result. *)
Theorem C2_ambiguity_first_wins (self : Resolver) (refdoc : string)
  (node : pending_xref) (contnode : element) (lg lg1 : logger)
  (results : list candidate) :
  collect self refdoc node contnode lg = (Ok results, lg1) ->
  (2 <= List.length results)%nat ->
  exists first rest,
    results = first :: rest /\
    resolve_myst_ref self refdoc node contnode lg
    = (Ok (Some (finish first)),
       log_add (ambiguity_record node results) lg1) /\
    (exists added,
       records (log_add (ambiguity_record node results) lg1)
       = records lg ++ added /\
       List.filter is_ambiguity_record added
       = [ambiguity_record node results]) /\
    (forall c, In c results ->
       exists pre post,
         msg (ambiguity_record node results)
         = String.append pre
             (String.append
                (String.concat ""
                   [":"; fst c; ":`";
                    match attributes_of (snd c) !! "reftitle" with
                    | Some (AStr title) => title
                    | _ => astext_element (snd c)
                    end; "`"])
                post)) /\
    msg (ambiguity_record node results)
    = String.concat ""
        ["more than one target found for 'myst' cross-reference ";
         reftarget node; ": could be ";
         String.concat " or "
           (List.map
              (fun c : candidate =>
                 String.concat ""
                   [":"; fst c; ":`";
                    match attributes_of (snd c) !! "reftitle" with
                    | Some (AStr title) => title
                    | _ => astext_element (snd c)
                    end; "`"])
              results);
         " [myst.ref]"] /\
    log_type (ambiguity_record node results) = "myst" /\
    log_subtype (ambiguity_record node results) = "ref" /\
    location (ambiguity_record node results) = Some node /\
    (exists tier std_hits dom_hits,
       results = tier ++ List.concat std_hits ++ List.concat dom_hits /\
       first_tier self refdoc node lg tier /\
       loop_hits (std_object_step self refdoc (reftarget node) contnode)
         (searched_kinds self) lg std_hits lg /\
       loop_hits (domain_step (myst_ref_domains (config self)) refdoc
                    (reftarget node) node contnode)
         (domains self) lg dom_hits lg1) /\
    (forall others lg2,
       fst (select node (first :: others) lg2) = Ok (Some (finish first))).
Proof.
  intros Hc Hlen.
  destruct results as [| first [| second rest]]; simpl in Hlen; try lia.
  exists first, (second :: rest). split; [reflexivity |].
  split.
  { unfold resolve_myst_ref, bind. rewrite Hc. apply select_many. }
  split.
  { destruct (collect_log _ _ _ _ _ _ _ Hc) as [Hlog _].
    destruct (domain_log_steps_records _ _ Hlog) as (added & E & Hall).
    exists (added ++ [ambiguity_record node (first :: second :: rest)]).
    simpl. rewrite E, <- List.app_assoc. split; [reflexivity |].
    rewrite List.filter_app, filter_none; [reflexivity |].
    eapply List.Forall_impl; [| exact Hall].
    intros r. apply domains_record_not_ambiguity. }
  split.
  { intros c Hin. rewrite <- stringify_spelled.
    apply ambiguous_msg_names. exact Hin. }
  split.
  { unfold ambiguity_record, ambiguous_msg, join. cbn [msg].
    rewrite (List.map_ext stringify _ stringify_spelled). reflexivity. }
  split; [reflexivity |]. split; [reflexivity |]. split; [reflexivity |].
  split.
  { apply collect_order with (1 := Hc). }
  intros [| o others] lg2; reflexivity.
Qed.

(** C2 at the sample project: [setup] is both a label and an option. *)
Lemma C2_ambiguity_first_wins_witness :
  exists first rest,
    the_candidates
      (collect Sample.self "guide/start" (Sample.link "setup" [])
         (content (Sample.link "setup" [])) empty_logger) = first :: rest /\
    fst first = "std:ref" /\
    List.map fst rest = ["std:option"] /\
    fst (resolve_myst_ref Sample.self "guide/start" (Sample.link "setup" [])
           (content (Sample.link "setup" [])) empty_logger)
    = Ok (Some (finish first)) /\
    List.map msg
      (records
         (snd (resolve_myst_ref Sample.self "guide/start"
                 (Sample.link "setup" [])
                 (content (Sample.link "setup" [])) empty_logger)))
    = ["more than one target found for 'myst' cross-reference setup: could be :std:ref:`Setup section` or :std:option:`` [myst.ref]"].
Proof.
  destruct (C2_ambiguity_first_wins Sample.self "guide/start"
              (Sample.link "setup" []) (content (Sample.link "setup" []))
              empty_logger empty_logger
              (the_candidates
                 (collect Sample.self "guide/start" (Sample.link "setup" [])
                    (content (Sample.link "setup" [])) empty_logger))
              ltac:(vm_compute; reflexivity) ltac:(vm_compute; lia))
    as (first & rest & E & Hres & _).
  exists first, rest. split; [exact E |].
  split; [| split; [| split]].
  - generalize E. vm_compute. intros [= <- _]. reflexivity.
  - generalize E. vm_compute. intros [= _ <-]. reflexivity.
  - rewrite Hres. reflexivity.
  - rewrite Hres. vm_compute. reflexivity.
Defined.

(** ** C1: a resolved anchor *)





(** ** One placeholder *)

Lemma emit_run {S} hs node contnode (s : S) :
  emit hs node contnode s
  = (fst (emit (S := unit) hs node contnode tt), s).
Proof.
  induction hs as [| h hs IH]; simpl; [reflexivity |].
  unfold bind. destruct (h node contnode) as [r |]; simpl; [| reflexivity].
  rewrite IH. destruct (emit hs node contnode tt) as [[rs | e] []]; reflexivity.
Qed.

Lemma emit_raises_nouri hs node contnode e :
  fst (emit (S := unit) hs node contnode tt) = Raise e -> e = NoUri.
Proof.
  induction hs as [| h hs IH]; simpl; [discriminate |].
  unfold bind. destruct (h node contnode) as [r |]; simpl.
  - destruct (emit hs node contnode tt) as [[rs | e'] []]; simpl in *;
      [discriminate |].
    intros [= <-]. now apply IH.
  - now intros [= <-].
Qed.

Lemma emit_firstresult_run {S} self node contnode (s : S) :
  emit_firstresult self node contnode s
  = (match handlers_outcome self node contnode with
     | Ok rs => Ok (first_result rs)
     | Raise e => Raise e
     end, s).
Proof.
  unfold emit_firstresult, handlers_outcome, bind.
  rewrite emit_run.
  destruct (fst (emit (missing_reference self) node contnode tt)); reflexivity.
Qed.

Lemma resolve_myst_ref_not_unsupported self refdoc node contnode lg lg' :
  resolve_myst_ref self refdoc node contnode lg
  <> (Raise NotImplementedError, lg').
Proof.
  unfold resolve_myst_ref, bind.
  destruct (collect self refdoc node contnode lg) as [[results | e] lg1] eqn:Hc.
  - destruct results as [| c [| c' rest]]; discriminate.
  - apply collect_log in Hc as [_ Hne]. intros [= -> ->]. now apply Hne.
Qed.

Lemma warn_missing_reference_ok self refdoc typ target node lg :
  exists lg', warn_missing_reference self refdoc typ target node lg = (Ok tt, lg').
Proof.
  unfold warn_missing_reference.
  destruct (missing_reference_warning _ _ _ _ _); eexists; reflexivity.
Qed.

Lemma reftype_restored x : reftype (restored x) = "myst".
Proof. reflexivity. Qed.

(** The loop body always gives a replacement, in one of the five ways of
    [resolution]. *)
Lemma resolve_node_resolution self s :
  exists new s',
    resolve_node self s = (Ok new, s') /\
    resolution self (rs_node s) (rs_log s) new s'.
Proof.
  destruct s as [lg x]. simpl.
  unfold resolve_node, try_except, bind, current_node, lift_log. simpl.
  destruct (resolve_myst_ref self (refdoc_or x (env_docname self)) x
              (content x) lg) as [[[n |] | e] lg1] eqn:Hr.
  - eexists _, _. split; [reflexivity |]. now apply resolved_builtin.
  - unfold assign, modify, try_finally, bind, current_node, ret. simpl.
    rewrite emit_firstresult_run.
    destruct (handlers_outcome self (set_reftype "any" x) (content x))
      as [rs | e] eqn:Hh.
    + destruct (first_result rs) as [n |] eqn:Hf.
      * cbn. eexists _, _. split; [reflexivity |].
        exact (resolved_by_handler self x lg n rs lg1 Hr Hh Hf).
      * simpl.
        destruct (warn_missing_reference_ok self (refdoc_or x (env_docname self))
                    "myst" (reftarget x) (set_refdomain "" (restored x)) lg1)
          as [lg2 Hw].
        unfold restored, as_any in Hw. simpl in Hw. rewrite Hw.
        eexists _, _. split; [reflexivity |].
        exact (unresolved self x lg rs lg1 lg2 Hr Hh Hf Hw).
    + pose proof (emit_raises_nouri _ _ _ _ Hh) as ->.
      cbn. eexists _, _. split; [reflexivity |].
      exact (unaddressable_handler self x lg lg1 Hr Hh).
  - destruct e.
    + eexists _, _. split; [reflexivity |].
      now apply unaddressable_builtin.
    + now apply resolve_myst_ref_not_unsupported in Hr.
Qed.

(** ** C7: the chain of missing-reference handlers *)

Lemma emit_pointwise hs node contnode rs :
  fst (emit (S := unit) hs node contnode tt) = Ok rs ->
  Forall2 (fun h r => h node contnode = Done r) hs rs.
Proof.
  revert rs. induction hs as [| h hs IH]; simpl; intros rs.
  - intros [= <-]. constructor.
  - unfold bind. destruct (h node contnode) as [r |] eqn:Hh; simpl;
      [| discriminate].
    destruct (emit hs node contnode tt) as [[rs' | e] []]; simpl in *;
      [| discriminate].
    intros [= <-]. constructor; [exact Hh | now apply IH].
Qed.

Lemma first_result_first rs n :
  first_result rs = Some n ->
  exists i, rs !! i = Some (Some n) /\
            forall j, (j < i)%nat -> rs !! j = Some None.
Proof.
  induction rs as [| [r |] rs IH]; simpl; [discriminate | |].
  - intros [= ->]. exists 0%nat. split; [reflexivity | intros j Hj; lia].
  - intros H. destruct (IH H) as (i & Hi & Hlt).
    exists (S i). split; [exact Hi |].
    intros [| j] Hj; [reflexivity | apply Hlt; lia].
Qed.

Lemma resolve_node_unique self s new s' :
  resolution self (rs_node s) (rs_log s) new s' ->
  resolve_node self s = (Ok new, s').
Proof.
  destruct (resolve_node_resolution self s) as (new0 & s0 & Hrun & Hres).
  intros H. rewrite Hrun.
  destruct H; inversion Hres; subst; try congruence.
Qed.

(** C7.  When no built-in strategy gives a candidate, the listeners of
    [missing-reference] are called, one after the other, with the
    placeholder reclassified as [any]; if none of them raises, the first
    result that is not [None] replaces the placeholder and the logger is
    left as it was; and the placeholder's kind is [myst] again afterwards,
    also when a listener raised [NoUri]. *)
Theorem C7_fallback_chain (self : Resolver) (x : pending_xref)
  (lg lg1 : logger) :
  reftype x = "myst" ->
  resolve_myst_ref self (refdoc_or x (env_docname self)) x (content x) lg
  = (Ok None, lg1) ->
  let s := {| rs_log := lg; rs_node := x |} in
  reftype (as_any x) = "any" /\
  reftype (rs_node (snd (resolve_node self s))) = reftype x /\
  (forall rs,
     handlers_outcome self (as_any x) (content x) = Ok rs ->
     Forall2 (fun h r => h (as_any x) (content x) = Done r)
       (missing_reference self) rs /\
     forall n,
       first_result rs = Some n ->
       resolve_node self s
       = (Ok n, {| rs_log := lg1; rs_node := restored x |}) /\
       exists i, rs !! i = Some (Some n) /\
                 forall j, (j < i)%nat -> rs !! j = Some None) /\
  (forall e,
     handlers_outcome self (as_any x) (content x) = Raise e ->
     resolve_node self s
     = (Ok (content x), {| rs_log := lg1; rs_node := restored x |})).
Proof.
  intros Hmyst Hr s. split; [reflexivity |]. split; [| split].
  - destruct (resolve_node_resolution self s) as (new & s' & Hrun & Hres).
    rewrite Hrun. simpl. rewrite Hmyst.
    inversion Hres; subst; simpl in *; try reflexivity; congruence.
  - intros rs Hrs. split; [now apply emit_pointwise |].
    intros n Hn. split; [| now apply first_result_first].
    apply resolve_node_unique.
    exact (resolved_by_handler self x lg n rs lg1 Hr Hrs Hn).
  - intros e He. pose proof (emit_raises_nouri _ _ _ _ He) as ->.
    apply resolve_node_unique.
    exact (unaddressable_handler self x lg lg1 Hr He).
Qed.

(** C7 at the sample project: nothing built in knows [external-thing]; the
    first listener is silent and the second answers. *)
Lemma C7_fallback_chain_witness :
  exists n,
    external_handler (as_any (Sample.link "external-thing" []))
      (content (Sample.link "external-thing" [])) = Done (Some n) /\
    resolve_node
      (Sample.with_handlers [silent_handler; external_handler] Sample.self)
      {| rs_log := empty_logger; rs_node := Sample.link "external-thing" [] |}
    = (Ok n, {| rs_log := empty_logger;
                rs_node := restored (Sample.link "external-thing" []) |}).
Proof.
  destruct (C7_fallback_chain
              (Sample.with_handlers [silent_handler; external_handler]
                 Sample.self)
              (Sample.link "external-thing" []) empty_logger empty_logger
              eq_refl ltac:(vm_compute; reflexivity))
    as (_ & _ & H & _).
  eexists. split; [reflexivity |].
  destruct (H _ eq_refl) as [_ H'].
  apply (H' _ eq_refl).
Defined.

(** ** C6: destinations without a location *)



(** The logger after [resolve_myst_ref]: when it selects nothing or raises,
    only first warnings about domains were logged. *)
Lemma resolve_myst_ref_quiet self refdoc node contnode lg r lg1 :
  resolve_myst_ref self refdoc node contnode lg = (r, lg1) ->
  r = Ok None \/ (exists e, r = Raise e) ->
  rtc domain_log_step lg lg1.
Proof.
  unfold resolve_myst_ref, bind.
  destruct (collect self refdoc node contnode lg) as [[results | e] lgc] eqn:Hc;
    apply collect_log in Hc as [Hlog _].
  - destruct results as [| c [| c' rest]]; simpl.
    + now intros [= <- <-] _.
    + intros [= <- <-] [H | [e H]]; discriminate.
    + intros [= <- <-] [H | [e H]]; discriminate.
  - now intros [= <- <-] _.
Qed.


(** C6, as the code has it.  Processing a placeholder never raises: it
    always gives a replacement.  When the built-in resolution signals
    [NoUri], or finds nothing and a listener of [missing-reference] signals
    it, the replacement is the placeholder's own content, and neither an
    ambiguity warning nor a missing-reference warning is emitted: all that
    was logged for the placeholder are the first warnings about noncompliant
    domains met before the signal. *)
Theorem C6_unaddressable_degrades (self : Resolver) (x : pending_xref)
  (lg : logger) :
  let s := {| rs_log := lg; rs_node := x |} in
  let refdoc := refdoc_or x (env_docname self) in
  (exists new s', resolve_node self s = (Ok new, s')) /\
  (forall lg1,
     resolve_myst_ref self refdoc x (content x) lg = (Raise NoUri, lg1) ->
     resolve_node self s = (Ok (content x), {| rs_log := lg1; rs_node := x |})
     /\
     exists added,
       records lg1 = records lg ++ added /\
       Forall (fun r => is_domains_record r = true) added) /\
  (forall lg1,
     resolve_myst_ref self refdoc x (content x) lg = (Ok None, lg1) ->
     handlers_outcome self (as_any x) (content x) = Raise NoUri ->
     resolve_node self s
     = (Ok (content x), {| rs_log := lg1; rs_node := restored x |})
     /\
     exists added,
       records lg1 = records lg ++ added /\
       Forall (fun r => is_domains_record r = true) added).
Proof.
  intros s refdoc. split; [| split].
  - destruct (resolve_node_resolution self s) as (new & s' & H & _). eauto.
  - intros lg1 Hr. split.
    + apply resolve_node_unique. now apply unaddressable_builtin.
    + apply domain_log_steps_records.
      eapply resolve_myst_ref_quiet; [exact Hr | right; eauto].
  - intros lg1 Hr Hh. split.
    + apply resolve_node_unique.
      exact (unaddressable_handler self x lg lg1 Hr Hh).
    + apply domain_log_steps_records.
      eapply resolve_myst_ref_quiet; [exact Hr | left; reflexivity].
Qed.

(** C6 at the sample project: the only listener cannot address
    [external-thing]. *)
Lemma C6_unaddressable_degrades_witness :
  resolve_node (Sample.with_handlers [unaddressable_handler_ex] Sample.self)
    {| rs_log := empty_logger; rs_node := Sample.link "external-thing" [] |}
  = (Ok (content (Sample.link "external-thing" [])),
     {| rs_log := empty_logger;
        rs_node := restored (Sample.link "external-thing" []) |}).
Proof.
  destruct (C6_unaddressable_degrades
              (Sample.with_handlers [unaddressable_handler_ex] Sample.self)
              (Sample.link "external-thing" []) empty_logger)
    as (_ & _ & H).
  apply (H empty_logger ltac:(vm_compute; reflexivity) eq_refl).
Defined.

(** C6 as stated does not hold: with a domain that never implemented
    [resolve_any_xref] registered before a domain that raises [NoUri], the
    placeholder is replaced by its own content, as the claim says, but a
    diagnostic was emitted on the way. *)
Lemma C6_counterexample :
  let self :=
    Sample.with_domains [Sample.legacy_domain; Sample.remote_domain]
      Sample.self in
  let x := Sample.link "external-thing" [] in
  let s := {| rs_log := empty_logger; rs_node := x |} in
  fst (resolve_myst_ref self "guide/start" x (content x) empty_logger)
  = Raise NoUri /\
  fst (resolve_node self s) = Ok (content x) /\
  List.map msg (records (rs_log (snd (resolve_node self s))))
  = ["Domain 'ext.legacy::legacy' has not implemented a `resolve_any_xref` method [myst.domains]"].
Proof. cbv zeta. split; [| split]; vm_compute; reflexivity. Qed.

(** ** The pass over the tree *)

Lemma dnode_induction (P : dnode -> Prop) :
  (forall n, P (DNode n)) ->
  (forall x, P (DXref x)) ->
  (forall tag a ch, Forall P ch -> P (DElem tag a ch)) ->
  forall t, P t.
Proof.
  intros Hn Hx He. fix IH 1. intros [n | x | tag a ch].
  - apply Hn.
  - apply Hx.
  - apply He. induction ch as [| c ch IHch]; constructor; [apply IH | exact IHch].
Qed.

Lemma run_dnode_elem self tag a ch :
  run_dnode self (DElem tag a ch)
  = (let* ch' := run_children self ch in ret (DElem tag a ch')).
Proof.
  simpl. f_equal. induction ch as [| c ch IH]; simpl; [reflexivity |].
  now rewrite IH.
Qed.







(** ** C3: every placeholder is replaced, once *)




(** ** C10: domains without [resolve_any_xref] *)

Lemma once_ok_empty : once_ok empty_logger.
Proof. split; [constructor | intros r []]. Qed.









(* ===================================================================== *)
(** * Examples *)
(* ===================================================================== *)

(** ** Strings and paths *)

Example lower_ex : lower "Setup-X9" = "setup-x9".
Proof. reflexivity. Qed.

Example split_ex : split sep "a//b/" = ["a"; ""; "b"; ""].
Proof. reflexivity. Qed.

Example rsplit1_ex : rsplit1 "#" "a#b#c" = Some ("a#b", "c").
Proof. reflexivity. Qed.

Example normpath_ex1 : normpath "guide/start/.././intro.md" = "guide/intro.md".
Proof. reflexivity. Qed.

Example normpath_ex2 : normpath "a/../.." = "..".
Proof. reflexivity. Qed.

Example normpath_ex3 : normpath "/../a//b/." = "/a/b".
Proof. reflexivity. Qed.

Example normpath_ex4 : normpath "./" = ".".
Proof. reflexivity. Qed.

Example path_join_ex : path_join "guide/start" [".."; "intro.md"]
                       = "guide/start/../intro.md".
Proof. reflexivity. Qed.

Example path_join_abs : path_join "guide/start" [".."; "/x"] = "/x".
Proof. reflexivity. Qed.

Example splitext_ex1 : splitext "guide/intro.md" = ("guide/intro", ".md").
Proof. reflexivity. Qed.

Example splitext_ex2 : splitext "guide/.hidden" = ("guide/.hidden", "").
Proof. reflexivity. Qed.

Example splitext_ex3 : splitext "a.b/c" = ("a.b/c", "").
Proof. reflexivity. Qed.

Example docname_join_ex : docname_join "guide/start" "./intro.md" = "guide/intro.md".
Proof. reflexivity. Qed.

Example docname_join_abs : docname_join "guide/start" "/intro" = "intro".
Proof. reflexivity. Qed.

Example docname_join_parent : docname_join "guide/start" "../index" = "index".
Proof. reflexivity. Qed.

Example splitext_twice : splitext "a.md.md" = ("a.md", ".md").
Proof. reflexivity. Qed.

(** ** The scenarios of the design document *)

(** [./intro.md#overview] from [guide/start]: the anchor of [guide/intro],
    labelled with the registry's text. *)
Example scenario_anchor :
  let r := the_node (_resolve_anchor Sample.self
                       (Sample.link "./intro.md#overview" [])
                       "guide/start" empty_logger) in
  get_str "refuri" "" r = "guide/intro.html#overview" /\
  astext_element r = "Overview".
Proof. split; vm_compute; reflexivity. Qed.

(** [setup] is a label and an option: both are named, the label wins. *)
Example scenario_ambiguous :
  let x := Sample.link "setup" [] in
  let out := resolve_myst_ref Sample.self "guide/start" x (content x)
               empty_logger in
  List.map msg (records (snd out))
  = ["more than one target found for 'myst' cross-reference setup: could be :std:ref:`Setup section` or :std:option:`` [myst.ref]"]
  /\ get_str "refuri" "" (the_node out) = "guide/intro.html#setup"
  /\ option_map get_classes (label_of (the_node out)) = Some ["std"; "std-ref"].
Proof. cbv zeta. repeat split; vm_compute; reflexivity. Qed.

(** A target nothing knows: the content stays, with one warning. *)
Example scenario_unresolved :
  let x := Sample.link "nothing" [Text "see"] in
  let out := run Sample.self (DElem "paragraph" ∅ [DXref x]) empty_logger in
  fst out = Ok (DElem "paragraph" ∅ [DNode (Elem (content x))]) /\
  List.map msg (records (ps_log (snd out)))
  = ["myst reference target not found: nothing"].
Proof. cbv zeta. split; vm_compute; reflexivity. Qed.

(** A document named twice over: the suffix is stripped once only. *)
Example scenario_suffix_once :
  let x := Sample.link "intro.md.md" [] in
  fst (_resolve_doc_nested Sample.self x "guide/start" empty_logger) = Ok None.
Proof. vm_compute. reflexivity. Qed.

(* ===================================================================== *)
(** * Further properties of the resolver *)
(* ===================================================================== *)

(** ** Results that do not depend on the logger *)














(** ** Documents without [myst] placeholders *)




(** ** The diagnostics of a placeholder and of a pass *)

Lemma resolve_myst_ref_tail self refdoc node contnode lg r lg1 :
  resolve_myst_ref self refdoc node contnode lg = (r, lg1) ->
  exists lgc,
    rtc domain_log_step lg lgc /\
    (lg1 = lgc \/
     exists first second rest,
       r = Ok (Some (finish first)) /\
       lg1 = log_add (ambiguity_record node (first :: second :: rest)) lgc).
Proof.
  unfold resolve_myst_ref, bind.
  destruct (collect self refdoc node contnode lg) as [[results | e] lgc] eqn:Hc;
    apply collect_log in Hc as [Hlog _].
  - destruct results as [| c [| c' rest]]; simpl; intros [= <- <-];
      exists lgc; split; auto.
    right. exists c, c', rest. auto.
  - intros [= <- <-]. exists lgc. auto.
Qed.

(** The logger after one placeholder. *)
Lemma resolution_tail self x lg new s' :
  resolution self x lg new s' ->
  exists lgc,
    rtc domain_log_step lg lgc /\ placeholder_tail self x lgc new (rs_log s').
Proof.
  intros H. destruct H as [n lg1 Hr | n rs lg1 Hr _ _ | rs lg1 lg2 Hr _ _ Hw
                           | lg1 Hr _ | lg1 Hr]; simpl.
  - destruct (resolve_myst_ref_tail _ _ _ _ _ _ _ Hr)
      as (lgc & Hlog & [-> | (c & c' & rest & [= ->] & ->)]);
      exists lgc; split; auto; [constructor | now constructor].
  - exists lg1. split; [| constructor].
    eapply resolve_myst_ref_quiet; [exact Hr | now left].
  - exists lg1. split; [eapply resolve_myst_ref_quiet; [exact Hr | now left] |].
    unfold warn_missing_reference in Hw.
    destruct (missing_reference_warning _ _ _ _ _) as [m |] eqn:Hm.
    + unfold warning in Hw. injection Hw as <-.
      now apply (tail_missing self x lg1 (content x) m).
    + injection Hw as <-. constructor.
  - exists lg1. split; [| constructor].
    eapply resolve_myst_ref_quiet; [exact Hr | now left].
  - exists lg1. split; [| constructor].
    eapply resolve_myst_ref_quiet; [exact Hr | right; eauto].
Qed.

Lemma log_grows_refl lg : log_grows lg lg.
Proof.
  exists []. rewrite List.app_nil_r. repeat split; [constructor | set_solver].
Qed.

Lemma log_grows_trans a b c : log_grows a b -> log_grows b c -> log_grows a c.
Proof.
  intros (l1 & E1 & H1 & S1) (l2 & E2 & H2 & S2).
  exists (l1 ++ l2). rewrite E2, E1, List.app_assoc.
  repeat split; [apply Forall_app; now split | set_solver].
Qed.

Lemma log_grows_add r lg : diagnostic r -> log_grows lg (log_add r lg).
Proof.
  intros Hr. exists [r]. repeat split; [now repeat constructor | set_solver].
Qed.

Lemma domain_log_steps_grow lg lg' :
  rtc domain_log_step lg lg' -> log_grows lg lg'.
Proof.
  induction 1 as [| lg lg1 lg2 Hstep _ IH]; [apply log_grows_refl |].
  eapply log_grows_trans; [| exact IH].
  destruct Hstep as [d lg _]. exists [domain_record d].
  repeat split; [repeat constructor | simpl; set_solver].
Qed.

Lemma resolution_grows self x lg new s' :
  resolution self x lg new s' -> log_grows lg (rs_log s').
Proof.
  intros H. destruct (resolution_tail _ _ _ _ _ H) as (lgc & Hlog & Htail).
  eapply log_grows_trans; [apply domain_log_steps_grow; exact Hlog |].
  destruct Htail.
  - apply log_grows_refl.
  - apply log_grows_add. constructor. simpl. lia.
  - apply log_grows_add. constructor.
Qed.

Lemma run_dnode_grows self t :
  forall s r s', run_dnode self t s = (r, s') ->
                 log_grows (ps_log s) (ps_log s').
Proof.
  induction t as [n | x | tag a ch IH] using dnode_induction; intros s r s'.
  - intros [= <- <-]. apply log_grows_refl.
  - simpl. unfold run_xref.
    destruct (negb _); [intros [= <- <-]; apply log_grows_refl |].
    destruct (resolve_node_resolution self
                {| rs_log := ps_log s; rs_node := x |})
      as (new & st & Hrun & Hres).
    unfold bind, replace_self. rewrite Hrun. intros [= <- <-]. simpl.
    apply (resolution_grows _ _ _ _ _ Hres).
  - rewrite run_dnode_elem.
    assert (Hch : forall s r s', run_children self ch s = (r, s') ->
                                 log_grows (ps_log s) (ps_log s')).
    { clear s r s'. induction IH as [| c ch Hc _ IHch]; intros s r s'; simpl.
      - intros [= <- <-]. apply log_grows_refl.
      - unfold bind.
        destruct (run_dnode self c s) as [[c' | e] s1] eqn:H1;
          apply Hc in H1.
        + destruct (run_children self ch s1) as [[ch' | e] s2] eqn:H2;
            apply IHch in H2; intros [= <- <-];
            eapply log_grows_trans; eassumption.
        + now intros [= <- <-]. }
    unfold bind.
    destruct (run_children self ch s) as [[ch' | e] s1] eqn:H1;
      apply Hch in H1; now intros [= <- <-].
Qed.

(** X3.  The pass only ever adds to the logger: the records it had are
    kept, in order; every record added is the warning about a noncompliant
    domain, an ambiguity warning for two or more candidates, or a
    missing-reference warning; and no message remembered by the [once]
    filter is forgotten. *)
Theorem X3_pass_only_appends_diagnostics (self : Resolver)
  (document : dnode) (lg : logger) :
  exists added,
    records (ps_log (snd (run self document lg))) = records lg ++ added /\
    Forall diagnostic added /\
    once_seen lg ⊆ once_seen (ps_log (snd (run self document lg))).
Proof.
  unfold run.
  destruct (run_dnode self document {| ps_log := lg; ps_replaced := [] |})
    as [r s'] eqn:Hrun.
  apply run_dnode_grows in Hrun. exact Hrun.
Qed.

(** X4.  One placeholder leaves in the logger first warnings about
    noncompliant domains and then at most one further record: an ambiguity
    warning, in which case the replacement is the first candidate, or a
    missing-reference warning with the message the inherited
    [warn_missing_reference] decides on, in which case the replacement is
    the placeholder's own content.  A placeholder never gets both. *)
Theorem X4_placeholder_diagnostics (self : Resolver) (x : pending_xref)
  (lg : logger) :
  exists new s' lgc doms,
    resolve_node self {| rs_log := lg; rs_node := x |} = (Ok new, s') /\
    records lgc = records lg ++ doms /\
    Forall (fun r => is_domains_record r = true) doms /\
    placeholder_tail self x lgc new (rs_log s').
Proof.
  destruct (resolve_node_resolution self {| rs_log := lg; rs_node := x |})
    as (new & s' & Hrun & Hres).
  simpl in Hres.
  destruct (resolution_tail _ _ _ _ _ Hres) as (lgc & Hlog & Htail).
  destruct (domain_log_steps_records _ _ Hlog) as (doms & E & Hall).
  exists new, s', lgc, doms. auto.
Qed.

(** ** Which domains are consulted, and what one [NoUri] does *)

Lemma domain_step_skipped ref_domains refdoc target node contnode acc d lg :
  participates ref_domains d = false ->
  domain_step ref_domains refdoc target node contnode acc d lg = (Ok acc, lg).
Proof.
  unfold participates, domain_step.
  destruct (String.eqb (name d) "std"); [reflexivity |].
  simpl. intros ->. reflexivity.
Qed.

Lemma domain_step_unaddressable ref_domains refdoc target node contnode acc d lg :
  participates ref_domains d = true ->
  resolve_any_xref d refdoc target node contnode = Raise NoUri ->
  domain_step ref_domains refdoc target node contnode acc d lg
  = (Raise NoUri, lg).
Proof.
  unfold participates, domain_step. intros Hp Hraise.
  apply andb_true_iff in Hp as [Hstd Hallowed].
  apply negb_true_iff in Hstd. rewrite Hstd, Hallowed. simpl.
  unfold try_except, bind, call_resolve_any_xref. now rewrite Hraise.
Qed.

Lemma fold_domain_step_unaddressable ref_domains refdoc target node contnode l d :
  In d l ->
  participates ref_domains d = true ->
  resolve_any_xref d refdoc target node contnode = Raise NoUri ->
  forall acc lg,
    fst (fold_loop (domain_step ref_domains refdoc target node contnode) l acc lg)
    = Raise NoUri.
Proof.
  intros Hin Hp Hraise. induction l as [| d' l IH]; [destruct Hin |].
  intros acc lg. simpl. unfold bind.
  destruct (domain_step _ _ _ _ _ acc d' lg) as [[acc' | e] lg1] eqn:Hd.
  - destruct Hin as [-> | Hin]; [| now apply IH].
    rewrite (domain_step_unaddressable _ _ _ _ _ _ _ _ Hp Hraise) in Hd.
    discriminate.
  - apply domain_step_log in Hd as [_ Hne]. simpl.
    destruct e; [reflexivity | congruence].
Qed.

Lemma collect_unaddressable self refdoc node contnode d lg :
  In d (domains self) ->
  participates (myst_ref_domains (config self)) d = true ->
  resolve_any_xref d refdoc (reftarget node) node contnode = Raise NoUri ->
  fst (collect self refdoc node contnode lg) = Raise NoUri.
Proof.
  intros Hin Hp Hraise. unfold collect, bind.
  destruct (anchor_label_doc self refdoc node lg) as [[t1 | e] lg1] eqn:H1.
  - destruct (std_objects self refdoc (reftarget node) contnode t1 lg1)
      as [[t2 | e] lg2] eqn:H2.
    + unfold other_domains.
      now apply fold_domain_step_unaddressable with (d := d).
    + simpl. destruct e; [reflexivity |].
      now apply std_objects_not_unsupported in H2.
  - simpl. destruct e; [reflexivity |].
    now apply anchor_label_doc_not_unsupported in H1.
Qed.

(** X5.  One consulted domain whose [resolve_any_xref] raises [NoUri] is
    enough for the whole resolution of the placeholder to raise it: whatever
    the anchor, label, document and object lookups and the other domains
    found is dropped, the listeners of [missing-reference] are not called
    (the placeholder keeps its kind), and the placeholder is replaced by its
    own content. *)
Theorem X5_unaddressable_domain_hides_matches (self : Resolver)
  (x : pending_xref) (d : Domain) (lg : logger) :
  let refdoc := refdoc_or x (env_docname self) in
  In d (domains self) ->
  participates (myst_ref_domains (config self)) d = true ->
  resolve_any_xref d refdoc (reftarget x) x (content x) = Raise NoUri ->
  fst (collect self refdoc x (content x) lg) = Raise NoUri /\
  fst (resolve_node self {| rs_log := lg; rs_node := x |}) = Ok (content x) /\
  rs_node (snd (resolve_node self {| rs_log := lg; rs_node := x |})) = x.
Proof.
  intros refdoc Hin Hp Hraise.
  pose proof (collect_unaddressable self refdoc x (content x) d lg
                Hin Hp Hraise) as Hc.
  split; [exact Hc |].
  assert (Hr : exists lg1,
             resolve_myst_ref self refdoc x (content x) lg = (Raise NoUri, lg1)).
  { unfold resolve_myst_ref, bind.
    destruct (collect self refdoc x (content x) lg) as [[res | e] lg1];
      simpl in Hc; [discriminate |].
    injection Hc as ->. eauto. }
  destruct Hr as [lg1 Hr].
  rewrite (resolve_node_unique self {| rs_log := lg; rs_node := x |}
             (content x) {| rs_log := lg1; rs_node := x |}
             (unaddressable_builtin self x lg lg1 Hr)).
  auto.
Qed.

(** X5 at the sample project: [setup] is a label and an option, but the
    domain [remote] cannot address anything. *)
Lemma X5_unaddressable_domain_hides_matches_witness :
  fst (resolve_node (Sample.with_domains [Sample.remote_domain] Sample.self)
         {| rs_log := empty_logger; rs_node := Sample.link "setup" [] |})
  = Ok (content (Sample.link "setup" [])).
Proof.
  destruct (X5_unaddressable_domain_hides_matches
              (Sample.with_domains [Sample.remote_domain] Sample.self)
              (Sample.link "setup" []) Sample.remote_domain empty_logger
              ltac:(simpl; auto) eq_refl eq_refl) as (_ & H & _).
  exact H.
Defined.

Lemma fold_domain_step_filter ref_domains refdoc target node contnode l :
  forall acc lg,
    fold_loop (domain_step ref_domains refdoc target node contnode) l acc lg
    = fold_loop (domain_step ref_domains refdoc target node contnode)
        (List.filter (participates ref_domains) l) acc lg.
Proof.
  induction l as [| d l IH]; intros acc lg; [reflexivity |].
  simpl. destruct (participates ref_domains d) eqn:Hp.
  - simpl. unfold bind.
    destruct (domain_step _ _ _ _ _ acc d lg) as [[acc' | e] lg1];
      [apply IH | reflexivity].
  - unfold bind. rewrite domain_step_skipped by exact Hp. apply IH.
Qed.

(** X6.  The allow-list [myst_ref_domains] governs the object search only.
    The loop over the domains is the loop over the domains that are not
    [std] and are on the list (a domain left out is not called at all); the
    standard-domain object search is skipped when [std] is not on the list;
    but anchor, named-label and document resolution are never restricted:
    with an empty list the candidates are exactly theirs. *)
Theorem X6_allow_list (self : Resolver) (refdoc : string)
  (node : pending_xref) (contnode : element) (results : list candidate)
  (lg : logger) :
  other_domains self refdoc (reftarget node) node contnode results lg
  = fold_loop (domain_step (myst_ref_domains (config self)) refdoc
                 (reftarget node) node contnode)
      (List.filter (participates (myst_ref_domains (config self)))
         (domains self)) results lg /\
  (forall allowed,
     myst_ref_domains (config self) = Some allowed ->
     "std" ∉ allowed ->
     std_objects self refdoc (reftarget node) contnode results lg
     = (Ok results, lg)) /\
  (myst_ref_domains (config self) = Some [] ->
   collect self refdoc node contnode lg
   = anchor_label_doc self refdoc node lg).
Proof.
  split; [apply fold_domain_step_filter |]. split.
  - intros allowed Hcfg Hstd. unfold std_objects. rewrite Hcfg. simpl.
    now rewrite (bool_decide_eq_false_2 _ Hstd).
  - intros Hcfg. unfold collect, bind.
    destruct (anchor_label_doc self refdoc node lg) as [[t1 | e] lg1];
      [| reflexivity].
    unfold std_objects. rewrite Hcfg. unfold domain_allowed.
    rewrite (bool_decide_eq_false_2 ("std" ∈ []));
      [| apply not_elem_of_nil].
    unfold ret. unfold other_domains.
    rewrite fold_domain_step_filter. rewrite Hcfg.
    replace (List.filter (participates (Some [])) (domains self))
      with (@nil Domain); [reflexivity |].
    symmetry. apply filter_none. apply List.Forall_forall. intros d _.
    unfold participates, domain_allowed.
    rewrite (bool_decide_eq_false_2 (name d ∈ []));
      [apply andb_false_r | apply not_elem_of_nil].
Qed.

(** X6 at the sample project with an empty allow-list: [setup] is still
    found as a label, and only as a label. *)
Lemma X6_allow_list_witness :
  collect (with_ref_domains (Some []) Sample.self) "guide/start"
    (Sample.link "setup" []) (content (Sample.link "setup" [])) empty_logger
  = anchor_label_doc (with_ref_domains (Some []) Sample.self) "guide/start"
      (Sample.link "setup" []) empty_logger.
Proof.
  destruct (X6_allow_list (with_ref_domains (Some []) Sample.self)
              "guide/start" (Sample.link "setup" [])
              (content (Sample.link "setup" [])) [] empty_logger)
    as (_ & _ & H).
  apply H. reflexivity.
Defined.

(** ** The classes of the selected candidate *)

Lemma split_head_before_colon (dom rest : string) :
  contains ":" dom = false ->
  List.hd "" (split ":" (String.append dom (String ":" rest))) = dom.
Proof.
  induction dom as [| a dom IH]; [reflexivity |].
  simpl. destruct (Ascii.eqb a ":") eqn:Ha; [discriminate |].
  intros Hdom. specialize (IH Hdom).
  destruct (split ":" (String.append dom (String ":" rest))) as [| w ws];
    simpl in *; now subst.
Qed.

Lemma replace_append c d (a b : string) :
  replace c d (String.append a b)
  = String.append (replace c d a) (replace c d b).
Proof.
  induction a as [| x a IH]; [reflexivity |].
  simpl. now rewrite IH.
Qed.

Lemma replace_absent c d (a : string) :
  contains c a = false -> replace c d a = a.
Proof.
  induction a as [| x a IH]; [reflexivity |].
  simpl. destruct (Ascii.eqb x c); [discriminate |].
  intros H. now rewrite (IH H).
Qed.

(** X7.  The selected candidate [(dom:role, r)] is returned with the
    classes [dom] and [dom-role] (every further colon of the role turned
    into a hyphen) appended to the classes of its first child, when that
    child is an element; the child's tag, children and other attributes and
    the node itself are otherwise as they were.  A node whose first child is
    not an element (a text node, or no child) is returned as it is. *)
Theorem X7_styling_classes (dom role : string) (r : element) :
  (first_child_element r = None ->
   finish (String.append dom (String ":" role), r) = r) /\
  (forall l,
     first_child_element r = Some l ->
     contains ":" dom = false ->
     let r' := finish (String.append dom (String ":" role), r) in
     exists l',
       first_child_element r' = Some l' /\
       get_classes l'
       = get_classes l
         ++ [dom; String.append dom (String "-" (replace ":" "-" role))] /\
       tag_of l' = tag_of l /\
       children_of l' = children_of l /\
       (forall k, k <> "classes" ->
                  attributes_of l' !! k = attributes_of l !! k) /\
       tag_of r' = tag_of r /\
       attributes_of r' = attributes_of r /\
       List.tl (children_of r') = List.tl (children_of r)).
Proof.
  split.
  - intros Hnone. unfold finish. now rewrite Hnone.
  - intros l Hl Hdom r'. subst r'. unfold finish. rewrite Hl.
    rewrite split_head_before_colon by exact Hdom.
    rewrite replace_append, (replace_absent _ _ _ Hdom).
    destruct r as [t raw a c]. unfold first_child_element in Hl. simpl in Hl.
    destruct c as [| [txt | e] rest]; try discriminate.
    injection Hl as ->.
    destruct l as [lt lraw la lc]. simpl.
    eexists. split; [reflexivity |].
    unfold get_classes. simpl. rewrite lookup_insert_eq.
    repeat split.
    intros k Hk. now rewrite lookup_insert_ne.
Qed.

(** X7 for the tag [std:ref] on a reference built by named-label
    resolution. *)
Lemma X7_styling_classes_witness :
  exists l',
    first_child_element
      (finish ("std:ref",
               the_node
                 (_resolve_ref_nested Sample.self (Sample.link "setup" [])
                    "guide/start" None empty_logger))) = Some l' /\
    get_classes l' = ["std"; "std-ref"].
Proof.
  destruct (X7_styling_classes "std" "ref"
              (the_node
                 (_resolve_ref_nested Sample.self (Sample.link "setup" [])
                    "guide/start" None empty_logger))) as [_ H].
  destruct (H (inline "Setup section" "Setup section" ∅)
              ltac:(vm_compute; reflexivity) eq_refl)
    as (l' & Hl' & Hc & _).
  exists l'. split; [exact Hl' | exact Hc].
Defined.

(** ** Named labels *)

Lemma make_refnode_astext {S} self fromdoc todoc targetid child (s s' : S) r :
  make_refnode self fromdoc todoc targetid child s = (Ok r, s') ->
  astext_element r = astext_element child.
Proof.
  intros H. apply make_refnode_children in H as [Hc Ht].
  destruct r as [t raw a c]. simpl in *. subst t c. reflexivity.
Qed.

Lemma inline_astext raw text attrs :
  astext_element (inline raw text attrs) = text.
Proof.
  unfold inline. simpl. destruct (String.eqb text "") eqn:E.
  - apply String.eqb_eq in E. now subst.
  - reflexivity.
Qed.

(** X8.  For a placeholder without text of its own the label of the
    reference comes from the registries: named-label resolution labels it
    with the section name stored with the label, document resolution with
    the cleaned title of the document, in an [inline] of class [doc]; in
    both cases this is also the text of the whole reference, and the
    placeholder's content is not used. *)
Theorem X8_implicit_label_text (self : Resolver) (node : pending_xref)
  (fromdoc : string) (Himplicit : refexplicit node = false) :
  (forall (S : Type) (s s' : S) target r d lid sect,
     labels (std self) !! ref_key node target = Some (d, lid, sect) ->
     _resolve_ref_nested self node fromdoc target s = (Ok (Some r), s') ->
     label_of r = Some (inline sect sect ∅) /\ astext_element r = sect)
  /\
  (forall (S : Type) (s s' : S) r,
     _resolve_doc_nested self node fromdoc s = (Ok (Some r), s') ->
     let caption :=
       clean_astext (titles self (doc_candidate self node fromdoc)) in
     label_of r
     = Some (inline caption caption {[ "classes" := AList ["doc"] ]}) /\
     astext_element r = caption).
Proof.
  split.
  - intros S s s' target r d lid sect Hreg H.
    unfold _resolve_ref_nested, ref_lookup in H.
    rewrite Himplicit, Hreg in H. cbn beta iota in H.
    destruct (String.eqb d ""); [discriminate |].
    unfold bind in H.
    destruct (make_refnode _ _ _ _ _ s) as [[r0 | e] s0] eqn:Hm;
      [| discriminate].
    injection H as <- <-.
    split; [apply (make_refnode_label _ _ _ _ _ _ _ _ Hm) |].
    rewrite (make_refnode_astext _ _ _ _ _ _ _ _ Hm). apply inline_astext.
  - intros S s s' r H caption. subst caption.
    unfold _resolve_doc_nested in H.
    destruct (negb _); [discriminate |].
    unfold bind in H.
    destruct (make_refnode _ _ _ _ _ s) as [[r0 | e] s0] eqn:Hm;
      [| discriminate].
    injection H as <- <-.
    unfold doc_innernode in Hm. rewrite Himplicit in Hm.
    split; [apply (make_refnode_label _ _ _ _ _ _ _ _ Hm) |].
    rewrite (make_refnode_astext _ _ _ _ _ _ _ _ Hm). apply inline_astext.
Qed.

(** X8 at the sample project: [[](index)] is labelled with the title of
    the document [index]. *)
Lemma X8_implicit_label_text_witness :
  astext_element
    (the_node (_resolve_doc_nested Sample.self (Sample.link "../index" [])
                 "guide/start" empty_logger))
  = "About index".
Proof.
  destruct (X8_implicit_label_text Sample.self (Sample.link "../index" [])
              "guide/start" eq_refl) as [_ H].
  destruct (H logger empty_logger empty_logger
              (the_node (_resolve_doc_nested Sample.self
                           (Sample.link "../index" [])
                           "guide/start" empty_logger))
              ltac:(vm_compute; reflexivity)) as [_ Ht].
  exact Ht.
Defined.

Lemma ref_lookup_docname self node key :
  (ref_lookup self node key).1.1 = registry_docname self node key.
Proof.
  unfold ref_lookup, registry_docname. destruct (refexplicit node).
  - destruct (anonlabels (std self) !! key) as [[d l] |]; reflexivity.
  - destruct (labels (std self) !! key) as [[[d l] t] |]; reflexivity.
Qed.

(** X9.  Named-label resolution gives no candidate exactly when the
    registry it reads (the anonymous labels for a placeholder with text of
    its own, the named labels otherwise) has no entry at the key, or has one
    whose document name is empty; the builder is then not asked for a URI,
    so nothing is raised either. *)
Theorem X9_label_miss (self : Resolver) (node : pending_xref)
  (fromdoc : string) (target : option string) (S : Type) (s : S) :
  fst (_resolve_ref_nested self node fromdoc target s) = Ok None
  <-> registry_docname self node (ref_key node target) = "".
Proof.
  rewrite <- ref_lookup_docname. unfold _resolve_ref_nested.
  destruct (ref_lookup self node (ref_key node target)) as [[d l] inner].
  simpl. destruct (String.eqb d "") eqn:E.
  - apply String.eqb_eq in E. split; auto.
  - apply String.eqb_neq in E. split; [| congruence].
    unfold bind. destruct (make_refnode _ _ _ _ _ s) as [[r | e] s1];
      discriminate.
Qed.

(** X10.  Named-label targets are matched without regard to ASCII case:
    two placeholders that differ only in the case of their targets resolve
    to the same named-label candidate. *)
Theorem X10_label_targets_fold_case (self : Resolver) (x : pending_xref)
  (t : string) (fromdoc : string) (S : Type) (s : S) :
  lower t = lower (reftarget x) ->
  _resolve_ref_nested self (with_target t x) fromdoc None s
  = _resolve_ref_nested self x fromdoc None s.
Proof.
  intros Hcase. unfold _resolve_ref_nested, ref_key, ref_lookup, xref_astext.
  simpl. rewrite Hcase. reflexivity.
Qed.

(** X10 at the sample project: [SETUP] resolves as [setup] does. *)
Lemma X10_label_targets_fold_case_witness :
  _resolve_ref_nested Sample.self
    (with_target "SETUP" (Sample.link "setup" [])) "guide/start" None
    empty_logger
  = _resolve_ref_nested Sample.self (Sample.link "setup" []) "guide/start"
      None empty_logger.
Proof.
  apply (X10_label_targets_fold_case Sample.self (Sample.link "setup" [])
           "SETUP" "guide/start" logger empty_logger eq_refl).
Defined.

(** ** Anchored targets *)

Lemma rsplit1_absent c s : contains c s = false -> rsplit1 c s = None.
Proof.
  induction s as [| x s IH]; simpl; [reflexivity |].
  destruct (Ascii.eqb x c); [discriminate |].
  intros H. now rewrite (IH H).
Qed.

Lemma rsplit1_append c p a :
  contains c a = false ->
  rsplit1 c (String.append p (String c a)) = Some (p, a).
Proof.
  intros Ha. induction p as [| x p IH]; simpl.
  - rewrite (rsplit1_absent _ _ Ha), Ascii.eqb_refl. reflexivity.
  - now rewrite IH.
Qed.

Lemma contains_append c p a :
  contains c (String.append p (String c a)) = true.
Proof.
  induction p as [| x p IH]; simpl.
  - now rewrite Ascii.eqb_refl.
  - destruct (Ascii.eqb x c); [reflexivity | exact IH].
Qed.

Lemma path_join_absolute (base rel : string) :
  startswith "/" rel = true -> path_join base [".."; rel] = rel.
Proof.
  intros H. cbn [path_join]. rewrite H.
  change (startswith "/" "..") with false. cbv iota.
  destruct (eqb base "" || endswith sep base); reflexivity.
Qed.

(** X11.  With anchor support on, a target [path#anchor] whose anchor has
    no [#] is cut back into exactly that path and anchor (the cut is at the
    last [#]).  When the path normalises to [.] (an empty path, [.], [./],
    [a/..]) the key is that of the referring document itself,
    [doc2path(refdoc)#anchor]; when it normalises to an absolute path the
    referring document plays no part in the key. *)
Theorem X11_anchor_same_document_and_absolute (self : Resolver)
  (node : pending_xref) (fromdoc path anchor : string) :
  myst_heading_anchors (config self) <> None ->
  contains "#" anchor = false ->
  reftarget node = String.append path (String "#" anchor) ->
  rsplit1 "#" (reftarget node) = Some (path, anchor) /\
  (normpath path = "." ->
   forall (S : Type) (s : S),
     _resolve_anchor self node fromdoc s
     = _resolve_ref_nested self node fromdoc
         (Some (String.append (doc2path self (refdoc_or node fromdoc))
                  (String "#" anchor))) s) /\
  (startswith "/" (normpath path) = true ->
   forall (S : Type) (s : S),
     _resolve_anchor self node fromdoc s
     = _resolve_ref_nested self node fromdoc
         (Some (String.append (normpath (normpath path))
                  (String "#" anchor))) s).
Proof.
  intros Hon Hanchor Htarget.
  assert (Hsplit : rsplit1 "#" (reftarget node) = Some (path, anchor))
    by (rewrite Htarget; now apply rsplit1_append).
  assert (Hhash : contains "#" (reftarget node) = true)
    by (rewrite Htarget; apply contains_append).
  split; [exact Hsplit |]. split.
  - intros Hdot S s. unfold _resolve_anchor.
    destruct (myst_heading_anchors (config self)); [| congruence].
    rewrite Hhash, Hsplit, Hdot. reflexivity.
  - intros Habs S s. unfold _resolve_anchor.
    destruct (myst_heading_anchors (config self)); [| congruence].
    rewrite Hhash, Hsplit. simpl negb. cbv iota.
    rewrite path_join_absolute by exact Habs.
    destruct (String.eqb (normpath path) ".") eqn:E; [| reflexivity].
    apply String.eqb_eq in E. rewrite E in Habs. discriminate.
Qed.

(** X11 at the sample project: [#overview] in a placeholder of the
    document [guide/start] is looked up as [guide/start.md#overview]. *)
Lemma X11_anchor_same_document_and_absolute_witness :
  _resolve_anchor Sample.self
    (with_target "#overview" (Sample.link "" [])) "guide/start" empty_logger
  = _resolve_ref_nested Sample.self
      (with_target "#overview" (Sample.link "" [])) "guide/start"
      (Some "guide/start.md#overview") empty_logger.
Proof.
  destruct (X11_anchor_same_document_and_absolute Sample.self
              (with_target "#overview" (Sample.link "" [])) "guide/start"
              "" "overview" ltac:(discriminate) eq_refl eq_refl)
    as (_ & H & _).
  apply (H eq_refl).
Defined.

(** ** Documents *)

Lemma substring_all (s : string) : String.substring 0 (String.length s) s = s.
Proof. induction s as [| c s IH]; simpl; [reflexivity | now rewrite IH]. Qed.

Lemma substring_cut (s : string) :
  forall n, (n <= String.length s)%nat ->
    String.append (String.substring 0 n s)
      (String.substring n (String.length s - n) s) = s.
Proof.
  induction s as [| c s IH]; intros n Hn.
  - destruct n; reflexivity.
  - destruct n as [| n].
    + simpl. now rewrite substring_all.
    + simpl in Hn.
      change (String c (String.append (String.substring 0 n s)
                          (String.substring n (String.length s - n) s))
              = String c s).
      f_equal. apply IH. lia.
Qed.

Lemma rfind_from_range c s :
  forall i acc,
    rfind_from c s i acc = acc \/
    (i <= rfind_from c s i acc < i + Z.of_nat (String.length s))%Z.
Proof.
  induction s as [| x s IH]; intros i acc; [now left |].
  cbn [rfind_from String.length].
  destruct (IH (i + 1)%Z (if Ascii.eqb x c then i else acc)) as [E | R].
  - rewrite E. destruct (Ascii.eqb x c); [right; lia | now left].
  - right. lia.
Qed.

(** [os.path.splitext] cuts a path in two: root and extension put together
    give the path back. *)
Lemma splitext_cut (p : string) :
  String.append (splitext p).1 (splitext p).2 = p.
Proof.
  unfold splitext.
  destruct ((rfind sep p <? rfind "." p)%Z && has_non_dot _ _ _) eqn:E;
    [| apply append_nil_r].
  apply andb_true_iff in E as [Hlt _]. apply Z.ltb_lt in Hlt.
  cbn [fst snd]. unfold slice, slice_from, rfind in *.
  destruct (rfind_from_range sep p 0 (-1)) as [Es | Rs];
    destruct (rfind_from_range "." p 0 (-1)) as [Ed | Rd]; try lia;
    (rewrite Z.sub_0_r; change (Z.to_nat 0) with 0%nat;
     apply substring_cut; lia).
Qed.

(** X12.  When document resolution gives a reference, its destination is a
    known document: either the name joined from the referring document and
    the target, or, that name being unknown, the name it becomes when a
    configured source suffix is cut off its end; and the reference carries
    the relative URI the builder gives for that destination.  It gives no
    candidate exactly when the name it settles on is not a known
    document. *)
Theorem X12_document_destination (self : Resolver) (node : pending_xref)
  (fromdoc : string) (S : Type) (s : S) :
  let joined := docname_join (refdoc_or node fromdoc) (reftarget node) in
  let dest := doc_candidate self node fromdoc in
  (fst (_resolve_doc_nested self node fromdoc s) = Ok None
   <-> (dest ∉ all_docs self)) /\
  (forall r s',
     _resolve_doc_nested self node fromdoc s = (Ok (Some r), s') ->
     dest ∈ all_docs self /\
     (dest = joined \/
      ((joined ∉ all_docs self) /\
       exists ext, ext ∈ source_suffix (config self) /\
                   joined = String.append dest ext)) /\
     get_relative_uri self fromdoc dest = Done (get_str "refuri" "" r)).
Proof.
  cbv zeta. split.
  - unfold _resolve_doc_nested.
    destruct (bool_decide (doc_candidate self node fromdoc ∈ all_docs self))
      eqn:Hin; simpl.
    + apply bool_decide_eq_true_1 in Hin. split; [| tauto].
      unfold bind. destruct (make_refnode _ _ _ _ _ s) as [[r | e] s1];
        discriminate.
    + apply bool_decide_eq_false_1 in Hin. tauto.
  - intros r s' H. unfold _resolve_doc_nested in H.
    destruct (bool_decide (doc_candidate self node fromdoc ∈ all_docs self))
      eqn:Hin; simpl in H; [| discriminate].
    apply bool_decide_eq_true_1 in Hin. split; [exact Hin |]. split.
    + unfold doc_candidate.
      destruct (bool_decide (_ ∈ all_docs self)) eqn:Hj; cbn [negb andb];
        [now left |].
      destruct (bool_decide (_ ∈ source_suffix (config self))) eqn:He;
        [| now left].
      right. split; [now apply bool_decide_eq_false_1 in Hj |].
      apply bool_decide_eq_true_1 in He.
      eexists. split; [exact He |].
      symmetry. apply splitext_cut.
    + unfold bind, make_refnode in H.
      change (negb (String.eqb "" "")) with false in H.
      rewrite andb_false_r in H. unfold bind in H.
      destruct (get_relative_uri self fromdoc (doc_candidate self node fromdoc))
        as [uri |]; simpl in H; [| discriminate].
      injection H as <- <-. unfold get_str. simpl.
      now rewrite lookup_insert_eq.
Qed.

(** ** Listeners *)

(** X13.  The listeners of [missing-reference] are consulted only after
    the built-in resolution has found nothing: when it selects a node, that
    node is the replacement whatever listeners are registered (also ones
    that would raise [NoUri]), the logger is as the resolution left it, and
    the placeholder keeps its kind and domain. *)
Theorem X13_builtin_before_listeners (self : Resolver) (x : pending_xref)
  (lg lg1 : logger) (n : element) (hs : list handler) :
  resolve_myst_ref self (refdoc_or x (env_docname self)) x (content x) lg
  = (Ok (Some n), lg1) ->
  resolve_node (with_listeners hs self) {| rs_log := lg; rs_node := x |}
  = (Ok n, {| rs_log := lg1; rs_node := x |}).
Proof.
  intros Hr. apply resolve_node_unique. simpl.
  apply resolved_builtin. exact Hr.
Qed.

(** X13 at the sample project: [setup] resolves though the only listener
    would raise. *)
Lemma X13_builtin_before_listeners_witness :
  fst (resolve_node (with_listeners [unaddressable_handler_ex] Sample.self)
         {| rs_log := empty_logger; rs_node := Sample.link "../index" [] |})
  = Ok (the_node
          (resolve_myst_ref Sample.self "guide/start"
             (Sample.link "../index" [])
             (content (Sample.link "../index" [])) empty_logger)).
Proof.
  rewrite (X13_builtin_before_listeners Sample.self
             (Sample.link "../index" []) empty_logger empty_logger
             (the_node
                (resolve_myst_ref Sample.self "guide/start"
                   (Sample.link "../index" [])
                   (content (Sample.link "../index" [])) empty_logger))
             [unaddressable_handler_ex]
             ltac:(vm_compute; reflexivity)).
  reflexivity.
Defined.

(** X12 at the sample project: [./intro.md] from [guide/start] is joined to
    [guide/intro.md], settles on [guide/intro], and gets its URI. *)
Lemma X12_document_destination_witness :
  doc_candidate Sample.self (Sample.link "./intro.md" []) "guide/start"
  ∈ all_docs Sample.self /\
  get_relative_uri Sample.self "guide/start"
    (doc_candidate Sample.self (Sample.link "./intro.md" []) "guide/start")
  = Done (get_str "refuri" ""
            (the_node (_resolve_doc_nested Sample.self
                         (Sample.link "./intro.md" []) "guide/start"
                         empty_logger))).
Proof.
  destruct (X12_document_destination Sample.self (Sample.link "./intro.md" [])
              "guide/start" logger empty_logger) as [_ H].
  destruct (H (the_node (_resolve_doc_nested Sample.self
                           (Sample.link "./intro.md" []) "guide/start"
                           empty_logger))
              empty_logger ltac:(vm_compute; reflexivity))
    as (Hin & _ & Huri).
  split; [exact Hin | exact Huri].
Defined.
